(** * Income / expense tracker: the record store and the agent client

    A shallow embedding of [main.py] (the record store behind the tool
    gateway) and of [client1.py] (the agent client).

    Modelling choices, all read off the source:

    - every tool of [main.py] is one SQL statement run against SQLite; a
      table is the list of its rows in scan order, a statement is a
      function on the store, and the clauses [WHERE], [ORDER BY],
      [GROUP BY], [LEFT JOIN], [SUM], [IFNULL] and [substr] are written out
      as list functions;
    - TEXT values are [string]s compared character by character (SQLite's
      default BINARY collation), INTEGER row ids are [Z], and amounts are
      [Z] as well: exact numbers stand for the REAL column, rounding is
      outside the model;
    - tool arguments range over the values of the column they are bound
      to; an optional Python argument is an [option], [None] standing for
      the argument left out (or passed as [None]);
    - [AUTOINCREMENT] keeps the largest id ever handed out in
      [sqlite_sequence]; the model keeps that counter next to each table. *)

From Stdlib Require Import ZArith List String Ascii Bool Lia.
From Stdlib Require Import Permutation Sorted.
Import ListNotations.

Open Scope string_scope.
Open Scope list_scope.
Open Scope Z_scope.

(** ** Text comparison *)

Module Text.

(** [memcmp]-style comparison of two TEXT values. *)
Definition le (a b : string) : bool := String.leb a b.

(** [a BETWEEN lo AND hi] on TEXT. *)
Definition between (lo hi a : string) : bool := le lo a && le a hi.

(** [substr(s, 1, 7)]: the first seven characters, fewer if [s] is
    shorter. *)
Definition substr_1_7 (s : string) : string := String.substring 0 7 s.

(** The lexicographic order, as an inductive relation: the empty string
    is below everything, a smaller first character decides, equal first
    characters defer to the tails. *)
Inductive lex_le : string -> string -> Prop :=
| lex_empty : forall s, lex_le EmptyString s
| lex_head : forall c1 c2 s1 s2,
    (N_of_ascii c1 < N_of_ascii c2)%N ->
    lex_le (String c1 s1) (String c2 s2)
| lex_tail : forall c s1 s2,
    lex_le s1 s2 -> lex_le (String c s1) (String c s2).

End Text.

(** ** SQL clauses as list functions *)

Module Sql.

Section OrderBy.
Context {A K : Type}.
Variable key : A -> K.
Variable kle : K -> K -> bool.

(** One step of the sorter: [x] goes in front of the first row whose
    key is strictly above its own. *)
Fixpoint place (x : A) (rows : list A) : list A :=
  match rows with
  | [] => [x]
  | y :: rest =>
      if kle (key y) (key x) then y :: place x rest else x :: y :: rest
  end.

(** [ORDER BY key ASC] over the rows of a scan. *)
Definition order_by (rows : list A) : list A :=
  fold_left (fun acc x => place x acc) rows [].

Definition ascending (a b : A) : Prop := kle (key a) (key b) = true.
End OrderBy.

(** [SUM(x)] over a group: NULL inputs are skipped, and the sum of no
    non-NULL input is NULL. *)
Fixpoint sum (xs : list (option Z)) : option Z :=
  match xs with
  | [] => None
  | None :: rest => sum rest
  | Some x :: rest =>
      match sum rest with
      | None => Some x
      | Some s => Some (x + s)
      end
  end.

(** [IFNULL(x, d)]. *)
Definition ifnull (x : option Z) (d : Z) : Z :=
  match x with Some v => v | None => d end.

Section GroupBy.
Context {A : Type}.
Variable key : A -> string.

(** [GROUP BY key]: one group per distinct key value, holding the rows
    that carry it. *)
Definition group_by (rows : list A) : list (string * list A) :=
  map (fun k => (k, filter (fun r => String.eqb (key r) k) rows))
      (nodup string_dec (map key rows)).
End GroupBy.

End Sql.

(** ** Rows *)

Module Expense.
Record row : Type := mk
  { id : Z; date : string; amount : Z; category : string;
    subcategory : string; note : string }.
End Expense.

Module Income.
Record row : Type := mk
  { id : Z; date : string; amount : Z; source : string; note : string }.
End Income.

Module Budget.
Record row : Type := mk { category : string; monthly_limit : Z }.
End Budget.

(** ** The store *)

Record Store : Type := mkStore
  { expenses : list Expense.row;
    expenses_seq : Z;
    income : list Income.row;
    income_seq : Z;
    budgets : list Budget.row }.

(** [init_db] on a fresh file: three empty tables, no counters yet. *)
Definition init_db : Store := mkStore [] 0 [] 0 [].

(** ** list_expenses *)

Definition list_expenses (start_date end_date : string) (db : Store)
  : list Expense.row :=
  Sql.order_by Expense.id Z.leb
    (filter (fun r => Text.between start_date end_date (Expense.date r))
            (expenses db)).

(** ** AUTOINCREMENT row ids *)

(** The largest row id SQLite can hand out. *)
Definition MAX_ROWID : Z := 2 ^ 63 - 1.

(** The largest row id present in a table, if any. *)
Definition last_rowid (ids : list Z) : option Z :=
  match ids with
  | [] => None
  | i :: rest => Some (fold_right Z.max i rest)
  end.

(** The id given to a row inserted without one into an AUTOINCREMENT
    table: one more than the largest id in the table (1 for an empty
    table), raised to one more than the counter of [sqlite_sequence]; the
    insert fails (the database is full) once either has reached
    [MAX_ROWID]. *)
Definition new_rowid (seq : Z) (ids : list Z) : option Z :=
  let candidate :=
    match last_rowid ids with
    | None => Some 1
    | Some top => if MAX_ROWID <=? top then None else Some (top + 1)
    end in
  match candidate with
  | None => None
  | Some v => if seq =? MAX_ROWID then None else Some (Z.max v (seq + 1))
  end.

(** What a tool hands back: a value, or the exception it died with. *)
Inductive exn : Type :=
| OperationalError.

Inductive outcome (A : Type) : Type :=
| Returned (a : A)
| Raised (e : exn).
Arguments Returned {A} a.
Arguments Raised {A} e.

(** A Python keyword argument with default [""]. *)
Definition or_empty (o : option string) : string :=
  match o with Some s => s | None => "" end.

(** ** add_expense *)

Definition add_expense (date : string) (amount : Z) (category : string)
    (subcategory note : option string) (db : Store)
  : outcome (string * Z) * Store :=
  match new_rowid (expenses_seq db) (map Expense.id (expenses db)) with
  | None => (Raised OperationalError, db)
  | Some rid =>
      let r := Expense.mk rid date amount category
                 (or_empty subcategory) (or_empty note) in
      (Returned ("ok", rid),
       mkStore (expenses db ++ [r]) rid
               (income db) (income_seq db) (budgets db))
  end.

(** ** summarize *)

Module Summary.
Record row : Type := mk { category : string; total_amount : option Z }.
End Summary.

(** Python's truth value of an optional string: [None] and [""] are
    false. *)
Definition truthy (o : option string) : bool :=
  match o with
  | None => false
  | Some s => negb (String.eqb s "")
  end.

(** The [WHERE] clause [summarize] builds: the date range, and the
    category test only when [if category:] lets it in. *)
Definition summarize_where (start_date end_date : string)
    (category : option string) (r : Expense.row) : bool :=
  Text.between start_date end_date (Expense.date r)
  && (if truthy category
      then String.eqb (Expense.category r) (or_empty category)
      else true).

Definition summarize (start_date end_date : string)
    (category : option string) (db : Store) : list Summary.row :=
  Sql.order_by Summary.category Text.le
    (map (fun g : string * list Expense.row =>
            Summary.mk (fst g)
              (Sql.sum (map (fun r => Some (Expense.amount r)) (snd g))))
         (Sql.group_by Expense.category
            (filter (summarize_where start_date end_date category)
                    (expenses db)))).

(** ** update_expense *)

(** One [column = ?] of the [SET] clause together with its parameter. *)
Inductive assignment : Type :=
| Set_date (v : string)
| Set_amount (v : Z)
| Set_category (v : string)
| Set_subcategory (v : string)
| Set_note (v : string).

Definition given {A : Type} (f : A -> assignment) (o : option A)
  : list assignment :=
  match o with Some v => [f v] | None => [] end.

(** The loop over the five keyword arguments, in the order of the dict
    literal: an argument that is not [None] adds its column. *)
Definition fields (date : option string) (amount : option Z)
    (category subcategory note : option string) : list assignment :=
  given Set_date date ++ given Set_amount amount
  ++ given Set_category category ++ given Set_subcategory subcategory
  ++ given Set_note note.

Definition assign (r : Expense.row) (a : assignment) : Expense.row :=
  match a with
  | Set_date v =>
      Expense.mk (Expense.id r) v (Expense.amount r) (Expense.category r)
                 (Expense.subcategory r) (Expense.note r)
  | Set_amount v =>
      Expense.mk (Expense.id r) (Expense.date r) v (Expense.category r)
                 (Expense.subcategory r) (Expense.note r)
  | Set_category v =>
      Expense.mk (Expense.id r) (Expense.date r) (Expense.amount r) v
                 (Expense.subcategory r) (Expense.note r)
  | Set_subcategory v =>
      Expense.mk (Expense.id r) (Expense.date r) (Expense.amount r)
                 (Expense.category r) v (Expense.note r)
  | Set_note v =>
      Expense.mk (Expense.id r) (Expense.date r) (Expense.amount r)
                 (Expense.category r) (Expense.subcategory r) v
  end.

(** [UPDATE expenses SET ... WHERE id = ?]. *)
Definition sql_update (sets : list assignment) (expense_id : Z)
    (rows : list Expense.row) : list Expense.row :=
  map (fun r => if Expense.id r =? expense_id
                then fold_left assign sets r else r) rows.

Definition update_expense (expense_id : Z) (date : option string)
    (amount : option Z) (category subcategory note : option string)
    (db : Store) : string * Store :=
  match fields date amount category subcategory note with
  | [] => ("no_changes", db)
  | sets =>
      ("ok",
       mkStore (sql_update sets expense_id (expenses db)) (expenses_seq db)
               (income db) (income_seq db) (budgets db))
  end.

(** ** delete_expense *)

Definition delete_expense (expense_id : Z) (db : Store) : string * Store :=
  ("deleted",
   mkStore (filter (fun r => negb (Expense.id r =? expense_id)) (expenses db))
           (expenses_seq db) (income db) (income_seq db) (budgets db)).

(** ** add_income, list_income *)

Definition add_income (date : string) (amount : Z) (source : string)
    (note : option string) (db : Store) : outcome (string * Z) * Store :=
  match new_rowid (income_seq db) (map Income.id (income db)) with
  | None => (Raised OperationalError, db)
  | Some rid =>
      let r := Income.mk rid date amount source (or_empty note) in
      (Returned ("ok", rid),
       mkStore (expenses db) (expenses_seq db)
               (income db ++ [r]) rid (budgets db))
  end.

Definition list_income (start_date end_date : string) (db : Store)
  : list Income.row :=
  Sql.order_by Income.date Text.le
    (filter (fun r => Text.between start_date end_date (Income.date r))
            (income db)).

(** ** set_budget *)

(** [INSERT ... ON CONFLICT(category) DO UPDATE SET monthly_limit =
    excluded.monthly_limit]: a row that already carries the category takes
    the new limit, otherwise a new row is added. *)
Definition set_budget (category : string) (monthly_limit : Z) (db : Store)
  : string * Store :=
  let hit (b : Budget.row) := String.eqb (Budget.category b) category in
  let rows :=
    if existsb hit (budgets db)
    then map (fun b => if hit b
                       then Budget.mk (Budget.category b) monthly_limit
                       else b) (budgets db)
    else budgets db ++ [Budget.mk category monthly_limit] in
  ("ok",
   mkStore (expenses db) (expenses_seq db) (income db) (income_seq db) rows).

(** ** budget_status *)

Module Status.
Record row : Type := mk
  { category : string; monthly_limit : Z; spent : Z; remaining : Z }.
End Status.

(** The [ON] condition of the join. *)
Definition join_on (month : string) (b : Budget.row) (e : Expense.row)
  : bool :=
  String.eqb (Budget.category b) (Expense.category e)
  && String.eqb (Text.substr_1_7 (Expense.date e)) month.

(** [budgets b LEFT JOIN expenses e ON ...]: every budget row paired with
    each expense row that meets the condition, or once with NULLs when
    none does. *)
Definition left_join (month : string) (bs : list Budget.row)
    (es : list Expense.row) : list (Budget.row * option Expense.row) :=
  flat_map
    (fun b =>
       match filter (join_on month b) es with
       | [] => [(b, None)]
       | hits => map (fun e => (b, Some e)) hits
       end) bs.

(** The select list over one group.  [b.monthly_limit] is a bare column:
    it is read from a row of the group (here the first; the rows of a
    group agree on it whenever categories are unique). *)
Definition status_of_group
    (g : string * list (Budget.row * option Expense.row))
  : list Status.row :=
  match snd g with
  | [] => []
  | (b, _) :: _ =>
      let spent :=
        Sql.ifnull
          (Sql.sum (map (fun p => option_map Expense.amount (snd p)) (snd g)))
          0 in
      [Status.mk (fst g) (Budget.monthly_limit b) spent
                 (Budget.monthly_limit b - spent)]
  end.

(** [b.category] of a joined row, the key of [GROUP BY b.category]. *)
Definition join_key {E : Type} (p : Budget.row * E) : string :=
  Budget.category (fst p).

Definition budget_status (month : string) (db : Store) : list Status.row :=
  Sql.order_by Status.category Text.le
    (flat_map status_of_group
       (Sql.group_by join_key
          (left_join month (budgets db) (expenses db)))).

(** ** The prompt templates *)

(** The f-string of [expense_summary_prompt]. *)
Definition expense_summary_prompt (start_date end_date : string) : string :=
  ("
You are a personal finance assistant.

Summarize the user's expenses between " ++ start_date ++ " and "
   ++ end_date ++ ".

Tasks:
- Identify top spending categories
- Mention unusually high expenses
- Suggest 1–2 optimization ideas

Use data returned from the expense summary tool.
")%string.

(** The f-string of [budget_health_prompt]. *)
Definition budget_health_prompt (month : string) : string :=
  ("
You are a budget advisor.

Analyze the user's budget status for " ++ month ++ ".

Tasks:
- Identify categories exceeding budget
- Flag categories above 80% usage
- Give concise, actionable advice

Base your reasoning strictly on the budget_status tool output.
")%string.

(** ** The tool surface as a transition system *)

Inductive call : Type :=
| Add_expense (date : string) (amount : Z) (category : string)
    (subcategory note : option string)
| List_expenses (start_date end_date : string)
| Summarize (start_date end_date : string) (category : option string)
| Update_expense (expense_id : Z) (date : option string)
    (amount : option Z) (category subcategory note : option string)
| Delete_expense (expense_id : Z)
| Add_income (date : string) (amount : Z) (source : string)
    (note : option string)
| List_income (start_date end_date : string)
| Set_budget (category : string) (monthly_limit : Z)
| Budget_status (month : string).

Inductive reply : Type :=
| Expense_id (r : outcome (string * Z))
| Income_id (r : outcome (string * Z))
| Status_only (status : string)
| Expense_rows (rows : list Expense.row)
| Summary_rows (rows : list Summary.row)
| Income_rows (rows : list Income.row)
| Status_rows (rows : list Status.row).

Definition step (c : call) (db : Store) : reply * Store :=
  match c with
  | Add_expense d a k s n =>
      let (r, db') := add_expense d a k s n db in (Expense_id r, db')
  | List_expenses s e => (Expense_rows (list_expenses s e db), db)
  | Summarize s e k => (Summary_rows (summarize s e k db), db)
  | Update_expense i d a k s n =>
      let (r, db') := update_expense i d a k s n db in (Status_only r, db')
  | Delete_expense i =>
      let (r, db') := delete_expense i db in (Status_only r, db')
  | Add_income d a s n =>
      let (r, db') := add_income d a s n db in (Income_id r, db')
  | List_income s e => (Income_rows (list_income s e db), db)
  | Set_budget k l =>
      let (r, db') := set_budget k l db in (Status_only r, db')
  | Budget_status m => (Status_rows (budget_status m db), db)
  end.

(** A database lifetime: the calls served one after the other, with the
    replies in order and the store they leave. *)
Fixpoint run (cs : list call) (db : Store) : list reply * Store :=
  match cs with
  | [] => ([], db)
  | c :: rest =>
      let (r, db1) := step c db in
      let (rs, db2) := run rest db1 in
      (r :: rs, db2)
  end.

(** The ids handed back by [add_expense], oldest first. *)
Fixpoint expense_ids (rs : list reply) : list Z :=
  match rs with
  | [] => []
  | Expense_id (Returned (_, i)) :: rest => i :: expense_ids rest
  | _ :: rest => expense_ids rest
  end.

(** The ids handed back by [add_income], oldest first. *)
Fixpoint income_ids (rs : list reply) : list Z :=
  match rs with
  | [] => []
  | Income_id (Returned (_, i)) :: rest => i :: income_ids rest
  | _ :: rest => income_ids rest
  end.

(** What the schema and the counters guarantee of a store: no id above its
    table's counter, and one budget row per category. *)
Record consistent (db : Store) : Prop := mkConsistent
  { expense_ids_counted :
      Forall (fun i => i <= expenses_seq db) (map Expense.id (expenses db));
    expense_ids_unique : NoDup (map Expense.id (expenses db));
    income_ids_counted :
      Forall (fun i => i <= income_seq db) (map Income.id (income db));
    income_ids_unique : NoDup (map Income.id (income db));
    budget_key : NoDup (map Budget.category (budgets db)) }.

(** ** The agent client ([client1.py]) *)

Module Client.

(** The keyword arguments of a tool invocation, values as JSON text. *)
Definition arguments : Type := list (string * string).

Record tool_call : Type := mkCall
  { name : string; args : option arguments; id : string }.

Record response : Type := mkResponse
  { tool_calls : list tool_call; content : string }.

Record tool_message : Type := mkMessage
  { tool_call_id : string; result : string }.

(** What is sent to the model: the prompt alone, or the prompt with the
    model's first answer and the tool results. *)
Inductive llm_input : Type :=
| Ask (prompt : string)
| Ask_again (prompt : string) (first : response)
    (results : list tool_message).

(** Everything [main] does to the outside, in order. *)
Inductive event : Type :=
| Get_tools
| Getenv (var : string)
| Print (label : string)
| Tool_ainvoke (tool : string) (a : arguments)
| Llm_ainvoke (i : llm_input).

(** The outside: the tools the gateway offers, the process environment,
    and the answers of the tools and of the model. *)
Record world : Type := mkWorld
  { tools : list string;
    getenv : string -> option string;
    tool_result : string -> arguments -> string;
    llm : llm_input -> response }.

Inductive failure : Type :=
| KeyError (key : string).

(** A run: the events so far, and a value or the exception that ended
    it. *)
Definition M (A : Type) : Type := list event * (A + failure).

Definition ret {A : Type} (a : A) : M A := ([], inl a).

Definition bind {A B : Type} (m : M A) (k : A -> M B) : M B :=
  match m with
  | (t, inl a) => let (t', r) := k a in (t ++ t', r)
  | (t, inr e) => (t, inr e)
  end.

Definition emit (e : event) : M unit := ([e], inl tt).

Definition raise {A : Type} (e : failure) : M A := ([], inr e).

Notation "x <- m ;; k" := (bind m (fun x => k))
  (at level 61, m at next level, right associativity).
Notation "m ;; k" := (bind m (fun _ => k))
  (at level 61, right associativity).

(** [named_tools[key].ainvoke(a)]: the lookup raises on an unknown
    name, before anything is sent. *)
Definition ainvoke (w : world) (named_tools : list string)
    (key : string) (a : arguments) : M string :=
  if existsb (String.eqb key) named_tools
  then emit (Tool_ainvoke key a) ;; ret (tool_result w key a)
  else raise (KeyError key).

Definition llm_ainvoke (w : world) (i : llm_input) : M response :=
  emit (Llm_ainvoke i) ;; ret (llm w i).

(** The loop over [response.tool_calls]. *)
Fixpoint run_tool_calls (w : world) (named_tools : list string)
    (tcs : list tool_call) : M (list tool_message) :=
  match tcs with
  | [] => ret []
  | tc :: rest =>
      let selected_tool_args :=
        match args tc with
        | Some (x :: a) => x :: a
        | _ => []
        end in
      emit (Print "LLM requested tool:") ;;
      r <- ainvoke w named_tools (name tc) selected_tool_args ;;
      emit (Print "Tool result for") ;;
      msgs <- run_tool_calls w named_tools rest ;;
      ret (mkMessage (id tc) r :: msgs)
  end.

Definition prompt : string :=
  "Add an expense of Rs 5000 as shopping on 2024-01-15 with note 'New shoes', and then list all expenses between 2024-01-01 and 2024-12-31.".

Definition smoke_test_arguments : arguments :=
  [("start_date", "2000-01-01"); ("end_date", "2100-01-01")].

Definition main (w : world) : M unit :=
  emit Get_tools ;;
  let named_tools := tools w in
  emit (Print "Available tools:") ;;
  emit (Getenv "OPENAI_API_KEY") ;;
  if negb (truthy (getenv w "OPENAI_API_KEY")) then
    emit (Print "OPENAI_API_KEY not set") ;;
    _ <- ainvoke w named_tools "list_expenses" smoke_test_arguments ;;
    emit (Print "list_expenses result:")
  else
    response <- llm_ainvoke w (Ask prompt) ;;
    emit (Print "LLM raw response repr:") ;;
    emit (Print "LLM tool_calls:") ;;
    emit (Print "LLM content repr:") ;;
    match tool_calls response with
    | [] => emit (Print "LLM Reply:")
    | tcs =>
        tool_messages <- run_tool_calls w named_tools tcs ;;
        emit (Print "Calling LLM with tool results. tool_messages:") ;;
        _ <- llm_ainvoke w (Ask_again prompt response tool_messages) ;;
        emit (Print "Final response repr:") ;;
        emit (Print "Final response content repr:")
    end.

Definition is_tool_event (e : event) : bool :=
  match e with Tool_ainvoke _ _ => true | _ => false end.

Definition is_llm_event (e : event) : bool :=
  match e with Llm_ainvoke _ => true | _ => false end.

(** The tools [main.py] registers with [@mcp.tool()]. *)
Definition gateway_tools : list string :=
  ["add_expense"; "list_expenses"; "summarize"; "update_expense";
   "delete_expense"; "add_income"; "list_income"; "set_budget";
   "budget_status"].

End Client.

(** ** Reference notions used by the statements *)


(** A supplied value replaces the old one, an absent one keeps it. *)
Definition supplied_or {A : Type} (o : option A) (old : A) : A :=
  match o with Some v => v | None => old end.

(** The row a partial update is meant to produce: each supplied field
    takes its new value, every other field and the id stay. *)
Definition patch (date : option string) (amount : option Z)
    (category subcategory note : option string) (r : Expense.row)
  : Expense.row :=
  Expense.mk (Expense.id r)
    (supplied_or date (Expense.date r))
    (supplied_or amount (Expense.amount r))
    (supplied_or category (Expense.category r))
    (supplied_or subcategory (Expense.subcategory r))
    (supplied_or note (Expense.note r)).

(** No optional argument of [update_expense] was supplied. *)
Definition nothing_supplied (date : option string) (amount : option Z)
    (category subcategory note : option string) : Prop :=
  date = None /\ amount = None /\ category = None
  /\ subcategory = None /\ note = None.




(** The counters of a store that has only ever been written through the
    tools: they started at 0 and have not passed [MAX_ROWID]. *)
Definition counters_in_range (db : Store) : Prop :=
  0 <= expenses_seq db <= MAX_ROWID /\ 0 <= income_seq db <= MAX_ROWID.

(** The [n] ids that follow [start]. *)
Fixpoint ids_after (start : Z) (n : nat) : list Z :=
  match n with
  | O => []
  | S k => (start + 1) :: ids_after (start + 1) k
  end.

(** The later of two optional arguments wins when both are supplied. *)
Definition later_or {A : Type} (later earlier : option A) : option A :=
  match later with Some _ => later | None => earlier end.

(** [tc.get("args") or {}]. *)
Definition selected_tool_args (tc : Client.tool_call) : Client.arguments :=
  match Client.args tc with
  | Some (x :: a) => x :: a
  | _ => []
  end.

(** The invocation a requested tool call leads to, and the message that
    carries its result back. *)
Definition requested_invocation (tc : Client.tool_call) : Client.event :=
  Client.Tool_ainvoke (Client.name tc) (selected_tool_args tc).

Definition result_message (w : Client.world) (tc : Client.tool_call)
  : Client.tool_message :=
  Client.mkMessage (Client.id tc)
    (Client.tool_result w (Client.name tc) (selected_tool_args tc)).

(** The tool is among those the gateway offered. *)
Definition offered (w : Client.world) (tc : Client.tool_call) : Prop :=
  In (Client.name tc) (Client.tools w).

(** * Properties *)

(** ** The text order is the lexicographic order *)

Module TextFacts.
Import Text.

Lemma le_lex (a b : string) : le a b = true <-> lex_le a b.
Proof.
  unfold le, String.leb. revert b.
  induction a as [|c a IH]; intros [|d b]; simpl.
  - split; [constructor | reflexivity].
  - split; [constructor | reflexivity].
  - split; [discriminate | intros H; inversion H].
  - unfold Ascii.compare.
    destruct (N.compare_spec (N_of_ascii c) (N_of_ascii d)) as [E|L|G].
    + apply (f_equal ascii_of_N) in E.
      rewrite !ascii_N_embedding in E. subst d.
      rewrite IH. split.
      * apply lex_tail.
      * intros H. inversion H; subst; [lia | assumption].
    + split; [intros _; now apply lex_head | reflexivity].
    + split; [discriminate |].
      intros H. inversion H; subst; lia.
Qed.

Lemma lex_le_refl (a : string) : lex_le a a.
Proof. induction a; constructor; assumption. Qed.

Lemma lex_le_trans (a b c : string) :
  lex_le a b -> lex_le b c -> lex_le a c.
Proof.
  intros H. revert c.
  induction H as [s|c1 c2 s1 s2 L|k s1 s2 H IH]; intros c Hbc.
  - constructor.
  - inversion Hbc; subst.
    + apply lex_head. lia.
    + now apply lex_head.
  - inversion Hbc; subst.
    + now apply lex_head.
    + apply lex_tail. now apply IH.
Qed.

Lemma le_refl (a : string) : le a a = true.
Proof. apply le_lex, lex_le_refl. Qed.

Lemma le_trans (a b c : string) :
  le a b = true -> le b c = true -> le a c = true.
Proof. rewrite !le_lex. apply lex_le_trans. Qed.

Lemma le_total (a b : string) : le a b = true \/ le b a = true.
Proof. apply String.leb_total. Qed.

Lemma between_lex (lo hi a : string) :
  between lo hi a = true <-> lex_le lo a /\ lex_le a hi.
Proof.
  unfold between. rewrite andb_true_iff, !le_lex. reflexivity.
Qed.



End TextFacts.

(** ** ORDER BY, GROUP BY and SUM *)

Module SqlFacts.
Import Sql.

Section OrderBy.
Context {A K : Type}.
Variable key : A -> K.
Variable kle : K -> K -> bool.

Lemma place_perm (x : A) (rows : list A) :
  Permutation (place key kle x rows) (x :: rows).
Proof.
  induction rows as [|y rest IH]; simpl.
  - apply Permutation_refl.
  - destruct (kle (key y) (key x)).
    + eapply perm_trans; [apply perm_skip, IH | apply perm_swap].
    + apply Permutation_refl.
Qed.

Lemma fold_place_perm (rows acc : list A) :
  Permutation (fold_left (fun a x => place key kle x a) rows acc)
              (rows ++ acc).
Proof.
  revert acc. induction rows as [|x rest IH]; intros acc; simpl.
  - apply Permutation_refl.
  - eapply perm_trans; [apply IH|].
    eapply perm_trans; [apply Permutation_app_head, place_perm|].
    apply Permutation_sym, Permutation_middle.
Qed.

Lemma order_by_perm (rows : list A) :
  Permutation (order_by key kle rows) rows.
Proof.
  unfold order_by.
  eapply perm_trans; [apply fold_place_perm|].
  rewrite app_nil_r. apply Permutation_refl.
Qed.

Lemma order_by_In (rows : list A) (x : A) :
  In x (order_by key kle rows) <-> In x rows.
Proof.
  split; apply Permutation_in;
    [apply order_by_perm | apply Permutation_sym, order_by_perm].
Qed.

Lemma order_by_length (rows : list A) :
  List.length (order_by key kle rows) = List.length rows.
Proof. apply Permutation_length, order_by_perm. Qed.

Hypothesis kle_total : forall a b, kle a b = true \/ kle b a = true.

Lemma place_hd (x d : A) (rows : list A) :
  ascending key kle d x -> HdRel (ascending key kle) d rows ->
  HdRel (ascending key kle) d (place key kle x rows).
Proof.
  intros Hx Hd. destruct rows as [|y rest]; simpl.
  - now constructor.
  - destruct (kle (key y) (key x)); constructor;
      [now inversion Hd | assumption].
Qed.

Lemma place_sorted (x : A) (rows : list A) :
  Sorted (ascending key kle) rows ->
  Sorted (ascending key kle) (place key kle x rows).
Proof.
  induction 1 as [|y rest S IH Hd]; simpl.
  - repeat constructor.
  - destruct (kle (key y) (key x)) eqn:E.
    + constructor; [assumption|]. now apply place_hd.
    + constructor; [now constructor|]. constructor.
      unfold ascending. destruct (kle_total (key x) (key y)); congruence.
Qed.

Lemma fold_place_sorted (rows acc : list A) :
  Sorted (ascending key kle) acc ->
  Sorted (ascending key kle)
         (fold_left (fun a x => place key kle x a) rows acc).
Proof.
  revert acc. induction rows as [|x rest IH]; intros acc S; simpl.
  - assumption.
  - apply IH, place_sorted, S.
Qed.

Lemma order_by_sorted (rows : list A) :
  Sorted (ascending key kle) (order_by key kle rows).
Proof. apply fold_place_sorted. constructor. Qed.

End OrderBy.

(** A row-wise rewrite that keeps the key commutes with the sorter. *)
Section OrderByMap.
Context {A B K : Type}.
Variable keyA : A -> K.
Variable keyB : B -> K.
Variable kle : K -> K -> bool.
Variable f : A -> B.
Hypothesis key_f : forall a, keyB (f a) = keyA a.



End OrderByMap.


End SqlFacts.

(** ** list_expenses *)

Lemma ascending_id_le (rows : list Expense.row) :
  Sorted (Sql.ascending Expense.id Z.leb) rows ->
  StronglySorted (fun a b => Expense.id a <= Expense.id b) rows.
Proof.
  intros S. apply Sorted_StronglySorted.
  - intros a b c; lia.
  - revert S. apply Sorted_ind with
      (P := Sorted (fun a b => Expense.id a <= Expense.id b)).
    + constructor.
    + intros a l _ IH Hd. constructor; [exact IH|].
      destruct Hd as [|b l' H]; constructor.
      unfold Sql.ascending in H. lia.
Qed.

Example list_expenses_sample :
  list_expenses "2024-01-01" "2024-12-31"
    (mkStore [Expense.mk 1 "2024-03-01" 10 "food" "" "";
              Expense.mk 2 "2023-12-31" 20 "rent" "" "";
              Expense.mk 3 "2024-01-15" 5000 "shopping" "" "New shoes"]
             3 [] 0 [])
  = [Expense.mk 1 "2024-03-01" 10 "food" "" "";
     Expense.mk 3 "2024-01-15" 5000 "shopping" "" "New shoes"].
Proof. reflexivity. Qed.

(** C1. For all bounds [d1], [d2], [list_expenses d1 d2] returns exactly
    the stored expense rows whose date lies between [d1] and [d2] in the
    lexicographic order on strings (each as often as it is stored), and
    the rows come out by ascending id. *)
Theorem list_expenses_range_by_id (db : Store) (d1 d2 : string) :
  (forall r,
      In r (list_expenses d1 d2 db) <->
      In r (expenses db)
      /\ Text.lex_le d1 (Expense.date r) /\ Text.lex_le (Expense.date r) d2)
  /\ Permutation (list_expenses d1 d2 db)
       (filter (fun r => Text.between d1 d2 (Expense.date r)) (expenses db))
  /\ StronglySorted (fun a b => Expense.id a <= Expense.id b)
       (list_expenses d1 d2 db).
Proof.
  unfold list_expenses. split; [|split].
  - intros r. rewrite SqlFacts.order_by_In, filter_In.
    now rewrite TextFacts.between_lex.
  - apply SqlFacts.order_by_perm.
  - apply ascending_id_le, SqlFacts.order_by_sorted.
    intros a b. rewrite !Z.leb_le. lia.
Qed.

(** ** Row ids *)

Lemma new_rowid_above (seq : Z) (ids : list Z) (rid : Z) :
  new_rowid seq ids = Some rid -> seq < rid.
Proof.
  unfold new_rowid.
  destruct (last_rowid ids) as [top|].
  - destruct (MAX_ROWID <=? top); [discriminate|].
    destruct (seq =? MAX_ROWID); [discriminate|].
    intros [= <-]. lia.
  - destruct (seq =? MAX_ROWID); [discriminate|].
    intros [= <-]. lia.
Qed.

Lemma run_cons (c : call) (rest : list call) (db : Store) :
  run (c :: rest) db
  = (fst (step c db) :: fst (run rest (snd (step c db))),
     snd (run rest (snd (step c db)))).
Proof.
  simpl. destruct (step c db) as [r db1]. simpl.
  destruct (run rest db1) as [rs db2]. reflexivity.
Qed.

(** One call never lowers a counter, and an id it hands back is above the
    counter it found and becomes the new counter. *)
Lemma step_expenses_seq (c : call) (db : Store) :
  expenses_seq db <= expenses_seq (snd (step c db))
  /\ forall s i, fst (step c db) = Expense_id (Returned (s, i)) ->
                 expenses_seq db < i /\ expenses_seq (snd (step c db)) = i.
Proof.
  destruct c; simpl; try (split; [lia | discriminate]).
  - unfold add_expense.
    destruct (new_rowid _ _) as [rid|] eqn:E; simpl.
    + apply new_rowid_above in E. split; [lia|].
      intros s i [= _ <-]. split; [assumption | reflexivity].
    + split; [lia | discriminate].
  - unfold update_expense. destruct (fields _ _ _ _ _); simpl;
      (split; [lia | discriminate]).
  - unfold add_income. destruct (new_rowid _ _); simpl;
      (split; [lia | discriminate]).
Qed.

Lemma step_income_seq (c : call) (db : Store) :
  income_seq db <= income_seq (snd (step c db))
  /\ forall s i, fst (step c db) = Income_id (Returned (s, i)) ->
                 income_seq db < i /\ income_seq (snd (step c db)) = i.
Proof.
  destruct c; simpl; try (split; [lia | discriminate]).
  - unfold add_expense. destruct (new_rowid _ _); simpl;
      (split; [lia | discriminate]).
  - unfold update_expense. destruct (fields _ _ _ _ _); simpl;
      (split; [lia | discriminate]).
  - unfold add_income.
    destruct (new_rowid _ _) as [rid|] eqn:E; simpl.
    + apply new_rowid_above in E. split; [lia|].
      intros s i [= _ <-]. split; [assumption | reflexivity].
    + split; [lia | discriminate].
Qed.

Lemma run_expense_ids (cs : list call) (db : Store) :
  Forall (fun i => expenses_seq db < i) (expense_ids (fst (run cs db)))
  /\ StronglySorted Z.lt (expense_ids (fst (run cs db))).
Proof.
  revert db. induction cs as [|c rest IH]; intros db.
  - simpl. split; constructor.
  - rewrite run_cons. cbn [fst].
    destruct (step_expenses_seq c db) as [Mono New].
    destruct (IH (snd (step c db))) as [Above Sorted'].
    assert (Above' : Forall (fun i => expenses_seq db < i)
                       (expense_ids (fst (run rest (snd (step c db)))))).
    { eapply Forall_impl; [|exact Above]. simpl. intros; lia. }
    destruct (fst (step c db)) as [[[s i]|e]| | | | | |] eqn:R;
      simpl; try (split; assumption).
    destruct (New s i eq_refl) as [Lt Eq]. rewrite Eq in Above.
    split; constructor; assumption.
Qed.

Lemma run_income_ids (cs : list call) (db : Store) :
  Forall (fun i => income_seq db < i) (income_ids (fst (run cs db)))
  /\ StronglySorted Z.lt (income_ids (fst (run cs db))).
Proof.
  revert db. induction cs as [|c rest IH]; intros db.
  - simpl. split; constructor.
  - rewrite run_cons. cbn [fst].
    destruct (step_income_seq c db) as [Mono New].
    destruct (IH (snd (step c db))) as [Above Sorted'].
    assert (Above' : Forall (fun i => income_seq db < i)
                       (income_ids (fst (run rest (snd (step c db)))))).
    { eapply Forall_impl; [|exact Above]. simpl. intros; lia. }
    destruct (fst (step c db)) as [|[[s i]|e]| | | | |] eqn:R;
      simpl; try (split; assumption).
    destruct (New s i eq_refl) as [Lt Eq]. rewrite Eq in Above.
    split; constructor; assumption.
Qed.

Example ids_after_delete :
  expense_ids (fst (run [Add_expense "2024-01-15" 5000 "shopping" None
                           (Some "New shoes");
                         Delete_expense 1;
                         Add_expense "2024-02-01" 120 "food" None None]
                        init_db))
  = [1; 2].
Proof. reflexivity. Qed.

(** C6. Over any sequence of calls served from any store, the ids handed
    back by [add_expense] form a strictly increasing sequence, and so do
    those handed back by [add_income]: each is strictly greater than every
    earlier one, whatever was deleted in between, so none is handed out
    twice. *)
Theorem returned_ids_strictly_increase (cs : list call) (db : Store) :
  StronglySorted Z.lt (expense_ids (fst (run cs db)))
  /\ StronglySorted Z.lt (income_ids (fst (run cs db)))
  /\ NoDup (expense_ids (fst (run cs db)))
  /\ NoDup (income_ids (fst (run cs db))).
Proof.
  assert (strict_nodup : forall l, StronglySorted Z.lt l -> NoDup l).
  { induction 1 as [|a l _ IH Hall]; constructor; [|exact IH].
    intros Hin. rewrite Forall_forall in Hall.
    specialize (Hall a Hin). lia. }
  destruct (run_expense_ids cs db) as [_ E].
  destruct (run_income_ids cs db) as [_ I].
  repeat split; auto.
Qed.

(** ** What every reachable store satisfies *)

Lemma NoDup_snoc {A : Type} (l : list A) (x : A) :
  NoDup l -> ~ In x l -> NoDup (l ++ [x]).
Proof.
  intros N X. apply Permutation_NoDup with (l := x :: l).
  - apply Permutation_cons_append.
  - now constructor.
Qed.

Lemma fold_assign_id (sets : list assignment) (r : Expense.row) :
  Expense.id (fold_left assign sets r) = Expense.id r.
Proof.
  revert r. induction sets as [|a rest IH]; intros r; simpl.
  - reflexivity.
  - rewrite IH. destruct a; reflexivity.
Qed.

Lemma sql_update_ids (sets : list assignment) (i : Z)
    (rows : list Expense.row) :
  map Expense.id (sql_update sets i rows) = map Expense.id rows.
Proof.
  unfold sql_update. rewrite map_map. apply map_ext.
  intros r. destruct (Expense.id r =? i); [apply fold_assign_id | reflexivity].
Qed.

Lemma filter_ids_sub {A : Type} (f : A -> bool) (g : A -> Z) (l : list A)
    (bound : Z) :
  Forall (fun i => i <= bound) (map g l) ->
  Forall (fun i => i <= bound) (map g (filter f l)).
Proof.
  rewrite !Forall_forall. intros H i Hin.
  apply in_map_iff in Hin. destruct Hin as [x [<- Hx]].
  apply filter_In in Hx. apply H, in_map, Hx.
Qed.

Lemma filter_ids_nodup {A : Type} (f : A -> bool) (g : A -> Z) (l : list A) :
  NoDup (map g l) -> NoDup (map g (filter f l)).
Proof.
  induction l as [|x rest IH]; simpl; intros N.
  - constructor.
  - inversion N as [|? ? Nx Nrest]; subst.
    destruct (f x); simpl; [constructor|]; auto.
    intros Hin. apply Nx.
    apply in_map_iff in Hin. destruct Hin as [y [E Hy]].
    apply filter_In in Hy. rewrite <- E. apply in_map, Hy.
Qed.

Lemma insert_keeps_ids (seq rid : Z) (ids : list Z) :
  Forall (fun i => i <= seq) ids -> NoDup ids ->
  new_rowid seq ids = Some rid ->
  Forall (fun i => i <= rid) (ids ++ [rid]) /\ NoDup (ids ++ [rid]).
Proof.
  intros Hall N E. apply new_rowid_above in E.
  rewrite Forall_forall in Hall. split.
  - apply Forall_app. split.
    + apply Forall_forall. intros i Hi. specialize (Hall i Hi). lia.
    + repeat constructor. lia.
  - apply NoDup_snoc; [assumption|].
    intros Hin. specialize (Hall rid Hin). lia.
Qed.

Lemma set_budget_categories (c : string) (l : Z) (bs : list Budget.row) :
  map Budget.category
    (map (fun b => if String.eqb (Budget.category b) c
                   then Budget.mk (Budget.category b) l else b) bs)
  = map Budget.category bs.
Proof.
  rewrite map_map. apply map_ext. intros b.
  destruct (String.eqb (Budget.category b) c); reflexivity.
Qed.

Lemma step_consistent (c : call) (db : Store) :
  consistent db -> consistent (snd (step c db)).
Proof.
  intros [EC EU IC IU BK]. destruct c; simpl; try (now constructor).
  - unfold add_expense.
    destruct (new_rowid _ _) as [rid|] eqn:E; simpl; [|now constructor].
    destruct (insert_keeps_ids _ _ _ EC EU E) as [C U].
    constructor; simpl; try assumption; now rewrite map_app.
  - unfold update_expense.
    destruct (fields _ _ _ _ _); simpl; [now constructor|].
    constructor; simpl; try assumption; now rewrite sql_update_ids.
  - constructor; simpl; try assumption.
    + now apply filter_ids_sub.
    + now apply filter_ids_nodup.
  - unfold add_income.
    destruct (new_rowid _ _) as [rid|] eqn:E; simpl; [|now constructor].
    destruct (insert_keeps_ids _ _ _ IC IU E) as [C U].
    constructor; simpl; try assumption; now rewrite map_app.
  - constructor; simpl; try assumption.
    destruct (existsb _ (budgets db)) eqn:X.
    + now rewrite set_budget_categories.
    + rewrite map_app. simpl. apply NoDup_snoc; [assumption|].
      intros Hin. apply in_map_iff in Hin. destruct Hin as [b [E Hb]].
      assert (T : existsb (fun b => String.eqb (Budget.category b) category)
                    (budgets db) = true).
      { apply existsb_exists. exists b. split; [assumption|].
        now apply String.eqb_eq. }
      congruence.
Qed.

Lemma init_db_consistent : consistent init_db.
Proof. constructor; simpl; constructor. Qed.

Lemma run_consistent (cs : list call) (db : Store) :
  consistent db -> consistent (snd (run cs db)).
Proof.
  revert db. induction cs as [|c rest IH]; intros db H.
  - exact H.
  - rewrite run_cons. simpl. apply IH, step_consistent, H.
Qed.

(** ** set_budget *)

Lemma set_budget_rows (db : Store) (c : string) (l : Z) (b : Budget.row) :
  In b (budgets (snd (set_budget c l db))) <->
  b = Budget.mk c l \/ (In b (budgets db) /\ Budget.category b <> c).
Proof.
  unfold set_budget. simpl.
  destruct (existsb _ (budgets db)) eqn:X.
  - apply existsb_exists in X. destruct X as [w [Hw Ew]].
    apply String.eqb_eq in Ew.
    rewrite in_map_iff. split.
    + intros [x [E Hx]].
      destruct (String.eqb_spec (Budget.category x) c) as [Ec|Nc].
      * left. now rewrite <- E, Ec.
      * right. subst b. now split.
    + intros [E|[Hb Nc]].
      * exists w. rewrite Ew, String.eqb_refl. now split.
      * exists b. apply String.eqb_neq in Nc. rewrite Nc. now split.
  - rewrite in_app_iff. simpl. split.
    + intros [Hb|[E|[]]]; [right | now left].
      split; [assumption|]. intros Ec.
      assert (T : existsb (fun b => String.eqb (Budget.category b) c)
                    (budgets db) = true).
      { apply existsb_exists. exists b. split; [assumption|].
        now apply String.eqb_eq. }
      congruence.
    + intros [E|[Hb _]]; [right; now left | now left].
Qed.

Lemma filter_none {A : Type} (f : A -> bool) (l : list A) :
  (forall x, In x l -> f x = false) -> filter f l = [].
Proof.
  induction l as [|x rest IH]; simpl; intros H; [reflexivity|].
  rewrite (H x (or_introl eq_refl)). apply IH.
  intros y Hy. apply H. now right.
Qed.

Lemma budget_row_unique (bs : list Budget.row) (b : Budget.row) :
  NoDup (map Budget.category bs) -> In b bs ->
  filter (fun x => String.eqb (Budget.category x) (Budget.category b)) bs
  = [b].
Proof.
  induction bs as [|x rest IH]; simpl; intros N Hin; [contradiction|].
  inversion N as [|? ? Nx Nrest]; subst.
  assert (No : forall y, In y rest ->
                 Budget.category y = Budget.category x ->
                 False).
  { intros y Hy E. apply Nx. rewrite <- E. now apply in_map. }
  destruct Hin as [->|Hin].
  - rewrite String.eqb_refl. f_equal.
    apply filter_none.
    intros y Hy. apply String.eqb_neq. intros E. exact (No y Hy E).
  - destruct (String.eqb_spec (Budget.category x) (Budget.category b))
      as [E|_].
    + exfalso. exact (No b Hin (eq_sym E)).
    + now apply IH.
Qed.

Example set_budget_twice :
  budgets (snd (set_budget "food" 450
                  (snd (set_budget "food" 300
                          (snd (set_budget "rent" 900 init_db))))))
  = [Budget.mk "rent" 900; Budget.mk "food" 450].
Proof. reflexivity. Qed.

(** C4. In every store reached from a fresh database, [set_budget c l1]
    followed by [set_budget c l2] leaves exactly one budget row for [c],
    and its limit is [l2].  A single [set_budget c l] leaves the rows of
    the other categories as they were and makes [(c, l)] the row of [c]
    (added when [c] was unseen, overwritten otherwise), and no reachable
    store holds two budget rows for one category. *)
Theorem set_budget_upsert (cs : list call) (c : string) (l1 l2 : Z) :
  let db := snd (run cs init_db) in
  let db2 := snd (set_budget c l2 (snd (set_budget c l1 db))) in
  filter (fun b => String.eqb (Budget.category b) c) (budgets db2)
  = [Budget.mk c l2]
  /\ (forall l b,
         In b (budgets (snd (set_budget c l db))) <->
         b = Budget.mk c l \/ (In b (budgets db) /\ Budget.category b <> c))
  /\ NoDup (map Budget.category (budgets db))
  /\ NoDup (map Budget.category (budgets db2)).
Proof.
  intros db db2.
  assert (K : consistent db) by apply run_consistent, init_db_consistent.
  assert (K2 : consistent db2).
  { apply (step_consistent (Set_budget c l2)),
          (step_consistent (Set_budget c l1)), K. }
  split; [|split; [|split]].
  - apply (budget_row_unique (budgets db2) (Budget.mk c l2)).
    + apply K2.
    + apply set_budget_rows. now left.
  - intros l b. apply set_budget_rows.
  - apply K.
  - apply K2.
Qed.

(** ** delete_expense *)

Lemma filter_all {A : Type} (f : A -> bool) (l : list A) :
  (forall x, In x l -> f x = true) -> filter f l = l.
Proof.
  induction l as [|x rest IH]; simpl; intros H; [reflexivity|].
  rewrite (H x (or_introl eq_refl)). f_equal. apply IH.
  intros y Hy. apply H. now right.
Qed.




(** ** update_expense *)

Lemma fields_patch (d : option string) (a : option Z)
    (c s n : option string) (r : Expense.row) :
  fold_left assign (fields d a c s n) r = patch d a c s n r.
Proof.
  destruct r, d, a, c, s, n; reflexivity.
Qed.

Lemma fields_nil (d : option string) (a : option Z) (c s n : option string) :
  fields d a c s n = [] <-> nothing_supplied d a c s n.
Proof.
  unfold nothing_supplied. split.
  - destruct d, a, c, s, n; simpl; try discriminate. intuition.
  - intros (-> & -> & -> & -> & ->). reflexivity.
Qed.

Lemma update_expense_unfold (i : Z) (d : option string) (a : option Z)
    (c s n : option string) (db : Store) :
  ~ nothing_supplied d a c s n ->
  update_expense i d a c s n db
  = ("ok",
     mkStore (map (fun r => if Expense.id r =? i
                            then patch d a c s n r else r) (expenses db))
             (expenses_seq db) (income db) (income_seq db) (budgets db)).
Proof.
  intros Some_given. unfold update_expense.
  destruct (fields d a c s n) as [|f fs] eqn:F.
  - exfalso. apply Some_given, fields_nil, F.
  - rewrite <- F. unfold sql_update. do 2 f_equal.
    apply map_ext. intros r. now rewrite fields_patch.
Qed.

Example update_note_only :
  expenses (snd (update_expense 1 None None None None (Some "Boots")
     (mkStore [Expense.mk 1 "2024-01-15" 5000 "shopping" "" "New shoes";
               Expense.mk 2 "2024-02-01" 120 "food" "" ""] 2 [] 0 [])))
  = [Expense.mk 1 "2024-01-15" 5000 "shopping" "" "Boots";
     Expense.mk 2 "2024-02-01" 120 "food" "" ""].
Proof. reflexivity. Qed.

(** C3. For a stored expense row [r]: [update_expense] with every optional
    argument absent answers "no_changes" and returns the store as it was;
    with at least one argument supplied it answers "ok", the addressed row
    becomes [r] with exactly the supplied fields replaced (id and the
    other fields kept), rows with another id are untouched, and so are the
    other tables and the counters. *)
Theorem update_expense_partial (db : Store) (r : Expense.row)
    (d : option string) (a : option Z) (c s n : option string) :
  In r (expenses db) ->
  (nothing_supplied d a c s n ->
   update_expense (Expense.id r) d a c s n db = ("no_changes", db))
  /\ (~ nothing_supplied d a c s n ->
      let db' := snd (update_expense (Expense.id r) d a c s n db) in
      fst (update_expense (Expense.id r) d a c s n db) = "ok"
      /\ expenses db'
         = map (fun x => if Expense.id x =? Expense.id r
                         then patch d a c s n x else x) (expenses db)
      /\ (exists r',
             In r' (expenses db')
             /\ Expense.id r' = Expense.id r
             /\ Expense.date r' = supplied_or d (Expense.date r)
             /\ Expense.amount r' = supplied_or a (Expense.amount r)
             /\ Expense.category r' = supplied_or c (Expense.category r)
             /\ Expense.subcategory r' = supplied_or s (Expense.subcategory r)
             /\ Expense.note r' = supplied_or n (Expense.note r))
      /\ expenses_seq db' = expenses_seq db
      /\ income db' = income db
      /\ income_seq db' = income_seq db
      /\ budgets db' = budgets db).
Proof.
  intros Stored. split.
  - intros None_given. apply fields_nil in None_given.
    unfold update_expense. now rewrite None_given.
  - intros Some_given. rewrite (update_expense_unfold _ _ _ _ _ _ _ Some_given).
    simpl. repeat split.
    exists (patch d a c s n r). repeat split.
    apply in_map_iff. exists r. now rewrite Z.eqb_refl.
Qed.

Lemma update_expense_partial_witness :
  update_expense 1 None None None None None
    (mkStore [Expense.mk 1 "2024-01-15" 5000 "shopping" "" "New shoes"]
             1 [] 0 [])
  = ("no_changes",
     mkStore [Expense.mk 1 "2024-01-15" 5000 "shopping" "" "New shoes"]
             1 [] 0 [])
  /\ fst (update_expense 1 None (Some 4500) None None None
            (mkStore [Expense.mk 1 "2024-01-15" 5000 "shopping" ""
                        "New shoes"] 1 [] 0 []))
     = "ok".
Proof.
  split.
  - apply (proj1 (update_expense_partial
                    (mkStore [Expense.mk 1 "2024-01-15" 5000 "shopping" ""
                                "New shoes"] 1 [] 0 [])
                    (Expense.mk 1 "2024-01-15" 5000 "shopping" "" "New shoes")
                    None None None None None (or_introl eq_refl))).
    repeat split.
  - apply (proj2 (update_expense_partial
                    (mkStore [Expense.mk 1 "2024-01-15" 5000 "shopping" ""
                                "New shoes"] 1 [] 0 [])
                    (Expense.mk 1 "2024-01-15" 5000 "shopping" "" "New shoes")
                    None (Some 4500) None None None (or_introl eq_refl))).
    intros (_ & H & _). discriminate H.
Defined.



(** ** list_income *)

Lemma Sorted_weaken {A : Type} (R R' : A -> A -> Prop) (l : list A) :
  (forall a b, R a b -> R' a b) -> Sorted R l -> Sorted R' l.
Proof.
  intros Sub. induction 1 as [|a l _ IH Hd]; constructor; [exact IH|].
  destruct Hd; constructor. now apply Sub.
Qed.

Lemma ascending_text_lex {A : Type} (key : A -> string) (rows : list A) :
  Sorted (Sql.ascending key Text.le) rows ->
  StronglySorted (fun a b => Text.lex_le (key a) (key b)) rows.
Proof.
  intros S. apply Sorted_StronglySorted.
  - intros a b c. apply TextFacts.lex_le_trans.
  - revert S. apply Sorted_weaken.
    intros a b. apply TextFacts.le_lex.
Qed.

Example list_income_sample :
  list_income "2024-01-01" "2024-12-31"
    (snd (run [Add_income "2024-02-01" 100 "salary" None;
               Add_income "2024-01-01" 40 "gift" None] init_db))
  = [Income.mk 2 "2024-01-01" 40 "gift" "";
     Income.mk 1 "2024-02-01" 100 "salary" ""].
Proof. reflexivity. Qed.

(** C8. For every date range [list_income] returns exactly the income rows
    whose date lies in the range, ordered by ascending date; the order is
    not the id order of [list_expenses]: there is a reachable store on
    which the ids come out descending. *)
Theorem list_income_by_date :
  (forall (db : Store) (start_date end_date : string),
      (forall r,
          In r (list_income start_date end_date db) <->
          In r (income db)
          /\ Text.lex_le start_date (Income.date r)
          /\ Text.lex_le (Income.date r) end_date)
      /\ Permutation (list_income start_date end_date db)
           (filter (fun r => Text.between start_date end_date (Income.date r))
                   (income db))
      /\ StronglySorted
           (fun a b => Text.lex_le (Income.date a) (Income.date b))
           (list_income start_date end_date db))
  /\ (exists (cs : list call) (start_date end_date : string),
         ~ Sorted (fun a b => Income.id a <= Income.id b)
             (list_income start_date end_date (snd (run cs init_db)))).
Proof.
  split.
  - intros db s e. unfold list_income. split; [|split].
    + intros r. rewrite SqlFacts.order_by_In, filter_In.
      now rewrite TextFacts.between_lex.
    + apply SqlFacts.order_by_perm.
    + apply ascending_text_lex, SqlFacts.order_by_sorted.
      apply TextFacts.le_total.
  - exists [Add_income "2024-02-01" 100 "salary" None;
            Add_income "2024-01-01" 40 "gift" None],
           "2024-01-01", "2024-12-31".
    rewrite list_income_sample. intros S.
    inversion S as [|? ? _ Hd]; subst.
    inversion Hd as [|? ? H]; subst. simpl in H. lia.
Qed.

(** ** summarize *)





Example summarize_all :
  summarize "2024-01-01" "2024-12-31" None
    (snd (run [Add_expense "2024-01-10" 10 "rent" None None;
               Add_expense "2024-01-20" 20 "food" None None;
               Add_expense "2024-03-05" 5 "rent" None None;
               Add_expense "2025-01-01" 7 "food" None None] init_db))
  = [Summary.mk "food" (Some 20); Summary.mk "rent" (Some 15)].
Proof. reflexivity. Qed.




(** ** budget_status *)



(** Grouping the output of a join by the key of its left side gives back,
    for each left row, the block the join made for it. *)
Section JoinGroups.
Context {E : Type}.
Variable block : Budget.row -> list (Budget.row * E).
Hypothesis block_left : forall b p, In p (block b) -> fst p = b.
Hypothesis block_nonempty : forall b, block b <> [].





End JoinGroups.





Example budget_status_sample :
  budget_status "2024-02"
    (snd (run [Set_budget "rent" 900; Set_budget "food" 300;
               Add_expense "2024-02-01" 120 "food" None None;
               Add_expense "2024-02-11" 200 "food" None None;
               Add_expense "2024-03-01" 50 "food" None None] init_db))
  = [Status.mk "food" 300 320 (-20); Status.mk "rent" 900 0 900].
Proof. reflexivity. Qed.




(** ** The agent client without a model credential *)

Module ClientFacts.
Import Client.

Lemma known_tool (w : world) (key : string) (a : arguments) :
  In key (tools w) ->
  ainvoke w (tools w) key a = ([Tool_ainvoke key a], inl (tool_result w key a)).
Proof.
  intros Known. unfold ainvoke.
  assert (X : existsb (String.eqb key) (tools w) = true).
  { apply existsb_exists. exists key. split; [assumption|].
    apply String.eqb_refl. }
  now rewrite X.
Qed.

Lemma gateway_offers_list_expenses : In "list_expenses" gateway_tools.
Proof. simpl. tauto. Qed.

(** With a credential the model is asked first. *)
Example with_credential_model_is_asked :
  fst (main (mkWorld gateway_tools (fun _ => Some "sk-test")
               (fun _ _ => "[]") (fun _ => mkResponse [] "Done.")))
  = [Get_tools; Print "Available tools:"; Getenv "OPENAI_API_KEY";
     Llm_ainvoke (Ask prompt);
     Print "LLM raw response repr:"; Print "LLM tool_calls:";
     Print "LLM content repr:"; Print "LLM Reply:"].
Proof. reflexivity. Qed.

(** C9. When the environment holds no model credential (the variable is
    unset or empty) and the gateway offers [list_expenses], as the one
    of [main.py] does, [main] looks the variable up, invokes
    [list_expenses] once with the fixed range 2000-01-01 to 2100-01-01,
    prints the result and returns normally: exactly one tool invocation,
    no request to the model, no exception. *)
Theorem smoke_test_without_credential (w : world) :
  getenv w "OPENAI_API_KEY" = None \/ getenv w "OPENAI_API_KEY" = Some "" ->
  In "list_expenses" (tools w) ->
  main w
  = ([Get_tools; Print "Available tools:"; Getenv "OPENAI_API_KEY";
      Print "OPENAI_API_KEY not set";
      Tool_ainvoke "list_expenses"
        [("start_date", "2000-01-01"); ("end_date", "2100-01-01")];
      Print "list_expenses result:"],
     inl tt)
  /\ filter is_tool_event (fst (main w))
     = [Tool_ainvoke "list_expenses"
          [("start_date", "2000-01-01"); ("end_date", "2100-01-01")]]
  /\ filter is_llm_event (fst (main w)) = []
  /\ snd (main w) = inl tt.
Proof.
  intros Unset Offered.
  assert (T : truthy (getenv w "OPENAI_API_KEY") = false)
    by (destruct Unset as [-> | ->]; reflexivity).
  assert (E : main w
              = ([Get_tools; Print "Available tools:";
                  Getenv "OPENAI_API_KEY";
                  Print "OPENAI_API_KEY not set";
                  Tool_ainvoke "list_expenses" smoke_test_arguments;
                  Print "list_expenses result:"],
                 inl tt)).
  { unfold main. rewrite T, (known_tool w _ _ Offered). reflexivity. }
  rewrite E. repeat split.
Qed.

Lemma smoke_test_without_credential_witness :
  main (mkWorld gateway_tools (fun _ => None)
          (fun _ _ => "[]") (fun _ => mkResponse [] ""))
  = ([Get_tools; Print "Available tools:"; Getenv "OPENAI_API_KEY";
      Print "OPENAI_API_KEY not set";
      Tool_ainvoke "list_expenses"
        [("start_date", "2000-01-01"); ("end_date", "2100-01-01")];
      Print "list_expenses result:"],
     inl tt).
Proof.
  apply (proj1 (smoke_test_without_credential
                  (mkWorld gateway_tools (fun _ => None)
                     (fun _ _ => "[]") (fun _ => mkResponse [] ""))
                  (or_introl eq_refl)
                  gateway_offers_list_expenses)).
Defined.

End ClientFacts.

(** * Further properties of the record store *)

(** ** Ids on stores written only through the tools *)

Lemma last_rowid_bound (ids : list Z) (top bound : Z) :
  Forall (fun i => i <= bound) ids -> last_rowid ids = Some top ->
  top <= bound.
Proof.
  destruct ids as [|i rest]; simpl; [discriminate|].
  intros Hall [= <-]. inversion Hall as [|? ? Hi Hrest]; subst.
  clear Hall. induction Hrest as [|j rest Hj _ IH]; simpl; lia.
Qed.

Lemma new_rowid_exact (seq : Z) (ids : list Z) (rid : Z) :
  Forall (fun i => i <= seq) ids -> 0 <= seq ->
  new_rowid seq ids = Some rid -> rid = seq + 1.
Proof.
  intros Hall Pos. unfold new_rowid.
  destruct (last_rowid ids) as [top|] eqn:L.
  - pose proof (last_rowid_bound ids top seq Hall L).
    destruct (MAX_ROWID <=? top); [discriminate|].
    destruct (seq =? MAX_ROWID); [discriminate|].
    intros [= <-]. lia.
  - destruct (seq =? MAX_ROWID); [discriminate|].
    intros [= <-]. lia.
Qed.


Lemma new_rowid_full (ids : list Z) : new_rowid MAX_ROWID ids = None.
Proof.
  unfold new_rowid. rewrite Z.eqb_refl.
  destruct (last_rowid ids) as [top|]; [|reflexivity].
  now destruct (MAX_ROWID <=? top).
Qed.





Lemma step_counters (c : call) (db : Store) :
  consistent db -> counters_in_range db ->
  counters_in_range (snd (step c db)).
Proof.
  intros K [[E0 E1] [I0 I1]].
  destruct c; simpl; try (split; split; assumption).
  - unfold add_expense.
    destruct (new_rowid _ _) as [rid|] eqn:N; simpl;
      [|split; split; assumption].
    pose proof (new_rowid_exact _ _ _ (expense_ids_counted db K) E0 N).
    assert (expenses_seq db <> MAX_ROWID).
    { intros F. rewrite F, new_rowid_full in N. discriminate. }
    split; split; simpl; lia.
  - unfold update_expense. destruct (fields _ _ _ _ _); simpl;
      split; split; assumption.
  - unfold add_income.
    destruct (new_rowid _ _) as [rid|] eqn:N; simpl;
      [|split; split; assumption].
    pose proof (new_rowid_exact _ _ _ (income_ids_counted db K) I0 N).
    assert (income_seq db <> MAX_ROWID).
    { intros F. rewrite F, new_rowid_full in N. discriminate. }
    split; split; simpl; lia.
Qed.

Lemma step_expense_id_exact (c : call) (db : Store) :
  consistent db -> counters_in_range db ->
  match fst (step c db) with
  | Expense_id (Returned (_, i)) =>
      i = expenses_seq db + 1 /\ expenses_seq (snd (step c db)) = i
  | _ => expenses_seq (snd (step c db)) = expenses_seq db
  end.
Proof.
  intros K [[E0 _] _]. destruct c; simpl; try reflexivity.
  - unfold add_expense.
    destruct (new_rowid _ _) as [rid|] eqn:N; simpl; [|reflexivity].
    split; [|reflexivity].
    exact (new_rowid_exact _ _ _ (expense_ids_counted db K) E0 N).
  - unfold update_expense. now destruct (fields _ _ _ _ _).
  - unfold add_income. now destruct (new_rowid _ _).
Qed.

Lemma step_income_id_exact (c : call) (db : Store) :
  consistent db -> counters_in_range db ->
  match fst (step c db) with
  | Income_id (Returned (_, i)) =>
      i = income_seq db + 1 /\ income_seq (snd (step c db)) = i
  | _ => income_seq (snd (step c db)) = income_seq db
  end.
Proof.
  intros K [_ [I0 _]]. destruct c; simpl; try reflexivity.
  - unfold add_expense. now destruct (new_rowid _ _).
  - unfold update_expense. now destruct (fields _ _ _ _ _).
  - unfold add_income.
    destruct (new_rowid _ _) as [rid|] eqn:N; simpl; [|reflexivity].
    split; [|reflexivity].
    exact (new_rowid_exact _ _ _ (income_ids_counted db K) I0 N).
Qed.

Lemma run_expense_ids_consecutive (cs : list call) (db : Store) :
  consistent db -> counters_in_range db ->
  expense_ids (fst (run cs db))
  = ids_after (expenses_seq db)
      (List.length (expense_ids (fst (run cs db)))).
Proof.
  revert db. induction cs as [|c rest IH]; intros db K R; [reflexivity|].
  rewrite run_cons. cbn [fst].
  pose proof (step_expense_id_exact c db K R) as X.
  specialize (IH (snd (step c db)) (step_consistent c db K)
                 (step_counters c db K R)).
  destruct (fst (step c db)) as [[[s i]|e]| | | | | |];
    cbn [expense_ids]; try (rewrite <- X; exact IH).
  destruct X as [Ei Es]. cbn [List.length ids_after].
  rewrite <- Ei. f_equal. rewrite <- Es. exact IH.
Qed.

Lemma run_income_ids_consecutive (cs : list call) (db : Store) :
  consistent db -> counters_in_range db ->
  income_ids (fst (run cs db))
  = ids_after (income_seq db)
      (List.length (income_ids (fst (run cs db)))).
Proof.
  revert db. induction cs as [|c rest IH]; intros db K R; [reflexivity|].
  rewrite run_cons. cbn [fst].
  pose proof (step_income_id_exact c db K R) as X.
  specialize (IH (snd (step c db)) (step_consistent c db K)
                 (step_counters c db K R)).
  destruct (fst (step c db)) as [|[[s i]|e]| | | | |];
    cbn [income_ids]; try (rewrite <- X; exact IH).
  destruct X as [Ei Es]. cbn [List.length ids_after].
  rewrite <- Ei. f_equal. rewrite <- Es. exact IH.
Qed.

Lemma init_db_counters : counters_in_range init_db.
Proof. unfold counters_in_range, MAX_ROWID. simpl. lia. Qed.

(** X3. Served from a fresh database, the ids handed back by
    [add_expense] are 1, 2, 3, ... in order, with no gap, whatever other
    calls (deletes included) come in between; likewise for
    [add_income]. *)
Theorem fresh_ids_count_from_one (cs : list call) :
  expense_ids (fst (run cs init_db))
  = ids_after 0 (List.length (expense_ids (fst (run cs init_db))))
  /\ income_ids (fst (run cs init_db))
     = ids_after 0 (List.length (income_ids (fst (run cs init_db)))).
Proof.
  split.
  - apply (run_expense_ids_consecutive cs init_db);
      [apply init_db_consistent | apply init_db_counters].
  - apply (run_income_ids_consecutive cs init_db);
      [apply init_db_consistent | apply init_db_counters].
Qed.

(** ** Listing after a write *)

(** X4. After a successful [add_expense], a range lists what it listed
    before, plus the new row exactly when its date lies in the range. *)
Theorem add_expense_then_list (db db' : Store) (d : string) (a : Z)
    (c : string) (s n : option string) (st : string) (i : Z)
    (lo hi : string) (r : Expense.row) :
  add_expense d a c s n db = (Returned (st, i), db') ->
  (In r (list_expenses lo hi db') <->
   In r (list_expenses lo hi db)
   \/ (r = Expense.mk i d a c (or_empty s) (or_empty n)
       /\ Text.lex_le lo d /\ Text.lex_le d hi)).
Proof.
  unfold add_expense. destruct (new_rowid _ _) as [rid|]; [|discriminate].
  intros [= <- <- <-]. unfold list_expenses. simpl.
  rewrite !SqlFacts.order_by_In, !filter_In, in_app_iff. simpl.
  rewrite TextFacts.between_lex. split.
  - intros [[Old|[<-|[]]] Range]; [left; now split | right].
    simpl in Range. now split.
  - intros [[Old Range]|[-> Range]]; (split; [|exact Range]);
      [now left | right; now left].
Qed.

Lemma add_expense_then_list_witness :
  In (Expense.mk 1 "2024-01-15" 5000 "shopping" "" "New shoes")
     (list_expenses "2024-01-01" "2024-12-31"
        (mkStore [Expense.mk 1 "2024-01-15" 5000 "shopping" "" "New shoes"]
                 1 [] 0 [])).
Proof.
  apply (proj2 (add_expense_then_list init_db _ "2024-01-15" 5000 "shopping"
                  None (Some "New shoes") "ok" 1 "2024-01-01" "2024-12-31"
                  _ eq_refl)).
  right. split; [reflexivity|].
  split; apply TextFacts.le_lex; reflexivity.
Defined.

(** Dropping rows commutes with the sorter, for a total and transitive
    order. *)
Section OrderByFilter.
Context {A K : Type}.
Variable key : A -> K.
Variable kle : K -> K -> bool.
Variable f : A -> bool.
Hypothesis kle_total : forall a b, kle a b = true \/ kle b a = true.
Hypothesis kle_trans :
  forall a b c, kle a b = true -> kle b c = true -> kle a c = true.

Lemma ascending_strongly (rows : list A) :
  Sorted (Sql.ascending key kle) rows ->
  StronglySorted (Sql.ascending key kle) rows.
Proof.
  apply Sorted_StronglySorted. intros a b c. apply kle_trans.
Qed.

Lemma place_front (x : A) (rows : list A) :
  Forall (fun z => kle (key z) (key x) = false) rows ->
  Sql.place key kle x rows = x :: rows.
Proof.
  destruct rows as [|z rest]; [reflexivity|]. simpl.
  intros Hall. inversion Hall as [|? ? Hz _]; subst. now rewrite Hz.
Qed.

Lemma place_filter (x : A) (rows : list A) :
  StronglySorted (Sql.ascending key kle) rows ->
  filter f (Sql.place key kle x rows)
  = if f x then Sql.place key kle x (filter f rows) else filter f rows.
Proof.
  induction 1 as [|y rest SS IH Above]; simpl.
  - now destruct (f x).
  - destruct (kle (key y) (key x)) eqn:E; simpl.
    + rewrite IH. destruct (f y), (f x); simpl; try reflexivity.
      now rewrite E.
    + destruct (f x); [|reflexivity].
      rewrite place_front; [reflexivity|].
      apply Forall_forall. intros z Hz.
      destruct (kle (key z) (key x)) eqn:Ez; [|reflexivity].
      assert (Hyz : kle (key y) (key z) = true).
      { destruct (f y); [destruct Hz as [<-|Hz]|];
          try (apply filter_In in Hz; destruct Hz as [Hz _];
               rewrite Forall_forall in Above; exact (Above z Hz)).
        destruct (kle_total (key y) (key y)); assumption. }
      rewrite (kle_trans _ _ _ Hyz Ez) in E. discriminate.
Qed.

Lemma fold_place_filter (rows acc : list A) :
  StronglySorted (Sql.ascending key kle) acc ->
  filter f (fold_left (fun a x => Sql.place key kle x a) rows acc)
  = fold_left (fun a x => Sql.place key kle x a)
      (filter f rows) (filter f acc).
Proof.
  revert acc. induction rows as [|x rest IH]; intros acc SS; simpl.
  - reflexivity.
  - rewrite IH.
    + rewrite (place_filter x acc SS). now destruct (f x).
    + apply ascending_strongly, SqlFacts.place_sorted;
        [exact kle_total | now apply StronglySorted_Sorted].
Qed.

Lemma order_by_filter (rows : list A) :
  filter f (Sql.order_by key kle rows)
  = Sql.order_by key kle (filter f rows).
Proof. apply (fold_place_filter rows []). constructor. Qed.
End OrderByFilter.

Lemma filter_swap {A : Type} (f g : A -> bool) (l : list A) :
  filter f (filter g l) = filter g (filter f l).
Proof.
  induction l as [|x rest IH]; simpl; [reflexivity|].
  destruct (g x) eqn:G, (f x) eqn:F; simpl; rewrite ?G, ?F, IH; reflexivity.
Qed.

(** X5. Deleting an id and then listing a range gives the earlier listing
    of that range without the rows of that id, in the same order; no
    listed row carries the deleted id. *)
Theorem delete_expense_then_list (db : Store) (expense_id : Z)
    (lo hi : string) :
  list_expenses lo hi (snd (delete_expense expense_id db))
  = filter (fun r => negb (Expense.id r =? expense_id))
           (list_expenses lo hi db)
  /\ (forall r, In r (list_expenses lo hi (snd (delete_expense expense_id db)))
                -> Expense.id r <> expense_id).
Proof.
  assert (E : list_expenses lo hi (snd (delete_expense expense_id db))
              = filter (fun r => negb (Expense.id r =? expense_id))
                       (list_expenses lo hi db)).
  { unfold list_expenses, delete_expense. simpl.
    rewrite order_by_filter.
    - now rewrite filter_swap.
    - intros a b. rewrite !Z.leb_le. lia.
    - intros a b c. rewrite !Z.leb_le. lia. }
  split; [exact E|].
  intros r Hr. rewrite E in Hr. apply filter_In in Hr.
  destruct Hr as [_ Hr]. now apply negb_true_iff, Z.eqb_neq in Hr.
Qed.

(** ** Updates compose *)

Lemma patch_patch (d1 d2 : option string) (a1 a2 : option Z)
    (c1 c2 s1 s2 n1 n2 : option string) (r : Expense.row) :
  patch d2 a2 c2 s2 n2 (patch d1 a1 c1 s1 n1 r)
  = patch (later_or d2 d1) (later_or a2 a1) (later_or c2 c1)
          (later_or s2 s1) (later_or n2 n1) r.
Proof. destruct d1, d2, a1, a2, c1, c2, s1, s2, n1, n2; reflexivity. Qed.

Lemma later_supplied (d1 d2 : option string) (a1 a2 : option Z)
    (c1 c2 s1 s2 n1 n2 : option string) :
  ~ nothing_supplied d2 a2 c2 s2 n2 ->
  ~ nothing_supplied (later_or d2 d1) (later_or a2 a1) (later_or c2 c1)
      (later_or s2 s1) (later_or n2 n1).
Proof.
  intros Given (Hd & Ha & Hc & Hs & Hn). apply Given.
  destruct d2, a2, c2, s2, n2; try discriminate. repeat split.
Qed.

(** X6. Two updates of the same id, each supplying something, leave the
    store that one update leaves when given, field by field, the later
    value where the second call supplies one and the earlier value
    otherwise; in particular repeating an update changes nothing more. *)
Theorem update_expense_twice (db : Store) (expense_id : Z)
    (d1 d2 : option string) (a1 a2 : option Z)
    (c1 c2 s1 s2 n1 n2 : option string) :
  ~ nothing_supplied d1 a1 c1 s1 n1 ->
  ~ nothing_supplied d2 a2 c2 s2 n2 ->
  snd (update_expense expense_id d2 a2 c2 s2 n2
         (snd (update_expense expense_id d1 a1 c1 s1 n1 db)))
  = snd (update_expense expense_id
           (later_or d2 d1) (later_or a2 a1) (later_or c2 c1)
           (later_or s2 s1) (later_or n2 n1) db)
  /\ snd (update_expense expense_id d1 a1 c1 s1 n1
            (snd (update_expense expense_id d1 a1 c1 s1 n1 db)))
     = snd (update_expense expense_id d1 a1 c1 s1 n1 db).
Proof.
  intros G1 G2.
  assert (Twice : forall e1 e2 : option string, forall b1 b2 : option Z,
             forall k1 k2 t1 t2 m1 m2 : option string,
             ~ nothing_supplied e1 b1 k1 t1 m1 ->
             ~ nothing_supplied e2 b2 k2 t2 m2 ->
             snd (update_expense expense_id e2 b2 k2 t2 m2
                    (snd (update_expense expense_id e1 b1 k1 t1 m1 db)))
             = snd (update_expense expense_id
                      (later_or e2 e1) (later_or b2 b1) (later_or k2 k1)
                      (later_or t2 t1) (later_or m2 m1) db)).
  { intros e1 e2 b1 b2 k1 k2 t1 t2 m1 m2 H1 H2.
    rewrite (update_expense_unfold _ _ _ _ _ _ db H1). cbn [snd].
    rewrite (update_expense_unfold _ _ _ _ _ _ _ H2).
    rewrite (update_expense_unfold _ _ _ _ _ _ db
               (later_supplied e1 e2 b1 b2 k1 k2 t1 t2 m1 m2 H2)).
    cbn [snd expenses expenses_seq income income_seq budgets].
    f_equal. rewrite map_map. apply map_ext. intros r.
    destruct (Expense.id r =? expense_id) eqn:E.
    - change (Expense.id (patch e1 b1 k1 t1 m1 r)) with (Expense.id r).
      rewrite E. apply patch_patch.
    - now rewrite E. }
  split; [now apply Twice|].
  rewrite (Twice _ _ _ _ _ _ _ _ _ _ G1 G1).
  now destruct d1, a1, c1, s1, n1.
Qed.

Lemma update_expense_twice_witness :
  snd (update_expense 1 None (Some 4500) None None None
         (snd (update_expense 1 None None None None (Some "Boots")
                 (mkStore [Expense.mk 1 "2024-01-15" 5000 "shopping" ""
                             "New shoes"] 1 [] 0 []))))
  = snd (update_expense 1 None (Some 4500) None None (Some "Boots")
           (mkStore [Expense.mk 1 "2024-01-15" 5000 "shopping" ""
                       "New shoes"] 1 [] 0 [])).
Proof.
  apply (proj1 (update_expense_twice
                  (mkStore [Expense.mk 1 "2024-01-15" 5000 "shopping" ""
                              "New shoes"] 1 [] 0 [])
                  1 None None None (Some 4500) None None None None
                  (Some "Boots") None
                  ltac:(intros (_ & _ & _ & _ & H); discriminate H)
                  ltac:(intros (_ & H & _); discriminate H))).
Defined.

(** X7. Whatever is supplied, [update_expense] keeps the stored ids, in
    the same order, and with them the number of rows; the counters, the
    income table and the budgets are never touched. *)
Theorem update_expense_keeps_ids (db : Store) (expense_id : Z)
    (d : option string) (a : option Z) (c s n : option string) :
  let db' := snd (update_expense expense_id d a c s n db) in
  map Expense.id (expenses db') = map Expense.id (expenses db)
  /\ List.length (expenses db') = List.length (expenses db)
  /\ expenses_seq db' = expenses_seq db
  /\ income db' = income db
  /\ income_seq db' = income_seq db
  /\ budgets db' = budgets db.
Proof.
  unfold update_expense.
  destruct (fields d a c s n) as [|f fs]; simpl; [repeat split|].
  repeat split.
  - apply sql_update_ids.
  - unfold sql_update. apply length_map.
Qed.

(** ** summarize over all categories *)













(** ** budget_status after a write *)




(** ** set_budget composes *)

Lemma overwrite_unseen (c : string) (l : Z) (bs : list Budget.row) :
  existsb (fun b => String.eqb (Budget.category b) c) bs = false ->
  map (fun b => if String.eqb (Budget.category b) c
                then Budget.mk (Budget.category b) l else b) bs
  = bs.
Proof.
  induction bs as [|b rest IH]; simpl; [reflexivity|].
  intros X. apply orb_false_iff in X. destruct X as [Hb Hrest].
  rewrite Hb. f_equal. now apply IH.
Qed.

Lemma overwrite_seen (c : string) (l : Z) (bs : list Budget.row) :
  existsb (fun b => String.eqb (Budget.category b) c)
    (map (fun b => if String.eqb (Budget.category b) c
                   then Budget.mk (Budget.category b) l else b) bs)
  = existsb (fun b => String.eqb (Budget.category b) c) bs.
Proof.
  induction bs as [|b rest IH]; simpl; [reflexivity|].
  rewrite IH. f_equal.
  destruct (String.eqb (Budget.category b) c) eqn:E; simpl; now rewrite E.
Qed.

(** X11. The last [set_budget] for a category wins on the whole store:
    setting [l1] and then [l2] leaves the very store that setting [l2]
    alone leaves, on any store; so repeating a [set_budget] changes
    nothing. *)
Theorem set_budget_last_wins (db : Store) (c : string) (l1 l2 : Z) :
  snd (set_budget c l2 (snd (set_budget c l1 db)))
  = snd (set_budget c l2 db)
  /\ snd (set_budget c l1 (snd (set_budget c l1 db)))
     = snd (set_budget c l1 db).
Proof.
  assert (Last : forall a b,
             snd (set_budget c b (snd (set_budget c a db)))
             = snd (set_budget c b db)).
  { intros a b. unfold set_budget. simpl.
    destruct (existsb _ (budgets db)) eqn:X.
    - rewrite overwrite_seen, X. f_equal.
      rewrite map_map. apply map_ext. intros r.
      destruct (String.eqb (Budget.category r) c) eqn:E; simpl;
        now rewrite E.
    - rewrite existsb_app. simpl. rewrite String.eqb_refl, orb_true_r.
      f_equal. rewrite map_app. simpl. rewrite String.eqb_refl.
      now rewrite overwrite_unseen. }
  split; apply Last.
Qed.




(** ** What no tool does *)

Lemma step_keeps_income (c : call) (db : Store) :
  exists added, income (snd (step c db)) = income db ++ added.
Proof.
  destruct c; simpl; try (exists []; now rewrite app_nil_r).
  - unfold add_expense. destruct (new_rowid _ _); simpl;
      exists []; now rewrite app_nil_r.
  - unfold update_expense. destruct (fields _ _ _ _ _); simpl;
      exists []; now rewrite app_nil_r.
  - unfold add_income. destruct (new_rowid _ _); simpl.
    + eexists. reflexivity.
    + exists []. now rewrite app_nil_r.
Qed.

Lemma step_keeps_budgeted (c : call) (db : Store) (k : string) :
  In k (map Budget.category (budgets db)) ->
  In k (map Budget.category (budgets (snd (step c db)))).
Proof.
  intros Hk. destruct c; simpl; try assumption.
  - unfold add_expense. now destruct (new_rowid _ _).
  - unfold update_expense. now destruct (fields _ _ _ _ _).
  - unfold add_income. now destruct (new_rowid _ _).
  - destruct (existsb _ (budgets db)).
    + now rewrite set_budget_categories.
    + rewrite map_app, in_app_iff. now left.
Qed.

(** X13. No sequence of tool calls removes or alters an income row, and
    none removes a budget: the income table after the calls is the income
    table before with rows added at the end, and a category that had a
    budget still has one. *)
Theorem income_and_budgets_persist (cs : list call) (db : Store) :
  (exists added, income (snd (run cs db)) = income db ++ added)
  /\ (forall k, In k (map Budget.category (budgets db)) ->
                In k (map Budget.category (budgets (snd (run cs db))))).
Proof.
  revert db. induction cs as [|c rest IH]; intros db.
  - split; [exists []; simpl; now rewrite app_nil_r | auto].
  - rewrite run_cons. cbn [snd].
    destruct (IH (snd (step c db))) as [[more Hmore] Hkeys].
    destruct (step_keeps_income c db) as [added Hadded]. split.
    + exists (added ++ more). now rewrite Hmore, Hadded, app_assoc.
    + intros k Hk. now apply Hkeys, step_keeps_budgeted.
Qed.

(** X14. After a successful [add_income], a range lists what it listed
    before, plus the new row exactly when its date lies in the range. *)
Theorem add_income_then_list (db db' : Store) (d : string) (a : Z)
    (src : string) (n : option string) (st : string) (i : Z)
    (lo hi : string) (r : Income.row) :
  add_income d a src n db = (Returned (st, i), db') ->
  (In r (list_income lo hi db') <->
   In r (list_income lo hi db)
   \/ (r = Income.mk i d a src (or_empty n)
       /\ Text.lex_le lo d /\ Text.lex_le d hi)).
Proof.
  unfold add_income. destruct (new_rowid _ _) as [rid|]; [|discriminate].
  intros [= <- <- <-]. unfold list_income. simpl.
  rewrite !SqlFacts.order_by_In, !filter_In, in_app_iff. simpl.
  rewrite TextFacts.between_lex. split.
  - intros [[Old|[<-|[]]] Range]; [left; now split | right].
    simpl in Range. now split.
  - intros [[Old Range]|[-> Range]]; (split; [|exact Range]);
      [now left | right; now left].
Qed.

Lemma add_income_then_list_witness :
  In (Income.mk 1 "2024-01-31" 100 "salary" "")
     (list_income "2024-01-01" "2024-12-31"
        (mkStore [] 0 [Income.mk 1 "2024-01-31" 100 "salary" ""] 1 [])).
Proof.
  apply (proj2 (add_income_then_list init_db _ "2024-01-31" 100 "salary"
                  None "ok" 1 "2024-01-01" "2024-12-31" _ eq_refl)).
  right. split; [reflexivity|].
  split; apply TextFacts.le_lex; reflexivity.
Defined.

(** X15. On every store reached from a fresh database a listing never
    shows two rows with the same id, for expenses and for income. *)
Theorem listings_have_distinct_ids (cs : list call) (lo hi : string) :
  NoDup (map Expense.id (list_expenses lo hi (snd (run cs init_db))))
  /\ NoDup (map Income.id (list_income lo hi (snd (run cs init_db)))).
Proof.
  pose proof (run_consistent cs init_db init_db_consistent) as K.
  split.
  - apply Permutation_NoDup
      with (l := map Expense.id
                   (filter (fun r => Text.between lo hi (Expense.date r))
                           (expenses (snd (run cs init_db))))).
    + apply Permutation_map, Permutation_sym, SqlFacts.order_by_perm.
    + apply filter_ids_nodup, K.
  - apply Permutation_NoDup
      with (l := map Income.id
                   (filter (fun r => Text.between lo hi (Income.date r))
                           (income (snd (run cs init_db))))).
    + apply Permutation_map, Permutation_sym, SqlFacts.order_by_perm.
    + apply filter_ids_nodup, K.
Qed.

(** * Further properties of the agent client *)

Module ClientRuns.
Import Client.

Lemma unknown_tool (w : world) (key : string) (a : arguments) :
  ~ In key (tools w) -> ainvoke w (tools w) key a = ([], inr (KeyError key)).
Proof.
  intros Unknown. unfold ainvoke.
  destruct (existsb (String.eqb key) (tools w)) eqn:X; [|reflexivity].
  exfalso. apply Unknown. apply existsb_exists in X.
  destruct X as [x [Hx E]]. apply String.eqb_eq in E. now subst x.
Qed.

Lemma run_offered (w : world) (tcs : list tool_call) :
  Forall (offered w) tcs ->
  run_tool_calls w (tools w) tcs
  = (flat_map (fun tc => [Print "LLM requested tool:";
                          requested_invocation tc;
                          Print "Tool result for"]) tcs,
     inl (map (result_message w) tcs)).
Proof.
  induction 1 as [|tc rest Htc _ IH]; [reflexivity|].
  cbn [run_tool_calls].
  rewrite (ClientFacts.known_tool w _ _ Htc), IH.
  unfold bind, emit, ret. simpl. now rewrite app_nil_r.
Qed.

Lemma run_until_unknown (w : world) (pre post : list tool_call)
    (tc : tool_call) :
  Forall (offered w) pre -> ~ offered w tc ->
  run_tool_calls w (tools w) (pre ++ tc :: post)
  = (flat_map (fun tc => [Print "LLM requested tool:";
                          requested_invocation tc;
                          Print "Tool result for"]) pre
     ++ [Print "LLM requested tool:"],
     inr (KeyError (name tc))).
Proof.
  intros Known Unknown.
  induction Known as [|x rest Hx _ IH].
  - cbn [app run_tool_calls flat_map].
    rewrite (unknown_tool w _ _ Unknown). reflexivity.
  - cbn [app run_tool_calls].
    rewrite (ClientFacts.known_tool w _ _ Hx), IH.
    unfold bind, emit, ret. simpl. reflexivity.
Qed.

Lemma tool_events_of_calls (tcs : list tool_call) :
  filter is_tool_event
    (flat_map (fun tc => [Print "LLM requested tool:";
                          requested_invocation tc;
                          Print "Tool result for"]) tcs)
  = map requested_invocation tcs.
Proof. induction tcs as [|tc rest IH]; simpl; [|rewrite IH]; reflexivity. Qed.

Lemma llm_events_of_calls (tcs : list tool_call) :
  filter is_llm_event
    (flat_map (fun tc => [Print "LLM requested tool:";
                          requested_invocation tc;
                          Print "Tool result for"]) tcs)
  = [].
Proof. induction tcs as [|tc rest IH]; simpl; [|rewrite IH]; reflexivity. Qed.

End ClientRuns.

Module ClientPaths.
Import Client.

(** What [main] has done by the time it looks at the model's answer. *)
Lemma main_with_model (w : world) :
  truthy (getenv w "OPENAI_API_KEY") = true ->
  main w
  = match tool_calls (llm w (Ask prompt)) with
    | [] =>
        ([Get_tools; Print "Available tools:"; Getenv "OPENAI_API_KEY";
          Llm_ainvoke (Ask prompt);
          Print "LLM raw response repr:"; Print "LLM tool_calls:";
          Print "LLM content repr:"; Print "LLM Reply:"],
         inl tt)
    | tcs =>
        match run_tool_calls w (tools w) tcs with
        | (t, inl msgs) =>
            ([Get_tools; Print "Available tools:"; Getenv "OPENAI_API_KEY";
              Llm_ainvoke (Ask prompt);
              Print "LLM raw response repr:"; Print "LLM tool_calls:";
              Print "LLM content repr:"]
             ++ t
             ++ [Print "Calling LLM with tool results. tool_messages:";
                 Llm_ainvoke (Ask_again prompt (llm w (Ask prompt)) msgs);
                 Print "Final response repr:";
                 Print "Final response content repr:"],
             inl tt)
        | (t, inr e) =>
            ([Get_tools; Print "Available tools:"; Getenv "OPENAI_API_KEY";
              Llm_ainvoke (Ask prompt);
              Print "LLM raw response repr:"; Print "LLM tool_calls:";
              Print "LLM content repr:"] ++ t,
             inr e)
        end
    end.
Proof.
  intros T. unfold main. rewrite T. cbn [negb].
  unfold llm_ainvoke, bind, emit, ret. cbn [app].
  destruct (tool_calls (llm w (Ask prompt))) as [|tc rest]; [reflexivity|].
  destruct (run_tool_calls w (tools w) (tc :: rest)) as [t [msgs|e]];
    simpl; reflexivity.
Qed.

Lemma credential_truthy (w : world) :
  (exists k, getenv w "OPENAI_API_KEY" = Some k /\ k <> "") ->
  truthy (getenv w "OPENAI_API_KEY") = true.
Proof.
  intros [k [-> Nonempty]]. simpl.
  apply String.eqb_neq in Nonempty. now rewrite Nonempty.
Qed.

(** X16. With a credential, when the model's answer requests no tool,
    [main] has asked the model once, invoked no tool, and returns
    normally. *)
Theorem no_tool_requested (w : world) :
  (exists k, getenv w "OPENAI_API_KEY" = Some k /\ k <> "") ->
  tool_calls (llm w (Ask prompt)) = [] ->
  snd (main w) = inl tt
  /\ filter is_llm_event (fst (main w)) = [Llm_ainvoke (Ask prompt)]
  /\ filter is_tool_event (fst (main w)) = [].
Proof.
  intros Cred NoCalls.
  rewrite (main_with_model w (credential_truthy w Cred)), NoCalls.
  repeat split.
Qed.

Lemma no_tool_requested_witness :
  filter is_llm_event
    (fst (main (mkWorld gateway_tools (fun _ => Some "sk-test")
                  (fun _ _ => "[]") (fun _ => mkResponse [] "Done."))))
  = [Llm_ainvoke (Ask prompt)].
Proof.
  refine (proj1 (proj2 (no_tool_requested
                         (mkWorld gateway_tools (fun _ => Some "sk-test")
                            (fun _ _ => "[]")
                            (fun _ => mkResponse [] "Done."))
                         _ _))).
  - exists "sk-test". split; [reflexivity | discriminate].
  - reflexivity.
Defined.

(** X17. With a credential, when every requested tool is one the gateway
    offered, [main] invokes the requested tools once each, in the order
    requested and with the requested arguments (none when the request
    carries none), then asks the model a second and last time, handing it
    one result message per request, in order and under the request's id,
    and returns normally. *)
Theorem all_requested_tools_run (w : world) :
  (exists k, getenv w "OPENAI_API_KEY" = Some k /\ k <> "") ->
  tool_calls (llm w (Ask prompt)) <> [] ->
  Forall (offered w) (tool_calls (llm w (Ask prompt))) ->
  snd (main w) = inl tt
  /\ filter is_tool_event (fst (main w))
     = map requested_invocation (tool_calls (llm w (Ask prompt)))
  /\ filter is_llm_event (fst (main w))
     = [Llm_ainvoke (Ask prompt);
        Llm_ainvoke
          (Ask_again prompt (llm w (Ask prompt))
             (map (result_message w) (tool_calls (llm w (Ask prompt)))))].
Proof.
  intros Cred Some_calls Offered.
  rewrite (main_with_model w (credential_truthy w Cred)).
  destruct (tool_calls (llm w (Ask prompt))) as [|tc rest] eqn:Calls;
    [congruence|].
  rewrite (ClientRuns.run_offered w _ Offered).
  cbn [fst snd]. split; [reflexivity|].
  rewrite !filter_app, ClientRuns.tool_events_of_calls,
    ClientRuns.llm_events_of_calls.
  cbn [filter is_tool_event is_llm_event app].
  rewrite app_nil_r. split; reflexivity.
Qed.

Lemma all_requested_tools_run_witness :
  filter is_tool_event
    (fst (main (mkWorld gateway_tools (fun _ => Some "sk-test")
                  (fun _ _ => "[]")
                  (fun _ => mkResponse
                              [mkCall "list_expenses" None "call_1"] ""))))
  = [Tool_ainvoke "list_expenses" []].
Proof.
  refine (proj1 (proj2 (all_requested_tools_run
                         (mkWorld gateway_tools (fun _ => Some "sk-test")
                            (fun _ _ => "[]")
                            (fun _ => mkResponse
                                        [mkCall "list_expenses" None
                                           "call_1"] ""))
                         _ _ _))).
  - exists "sk-test". split; [reflexivity | discriminate].
  - discriminate.
  - simpl. constructor; [|constructor]. unfold offered. simpl. tauto.
Defined.

(** X18. With a credential, when a requested tool is not among those the
    gateway offered, [main] ends with [KeyError] on that name: the
    requests before it have been invoked, in order, none after it is, and
    the model is not asked a second time. *)
Theorem unknown_tool_aborts (w : world) (pre post : list tool_call)
    (tc : tool_call) :
  (exists k, getenv w "OPENAI_API_KEY" = Some k /\ k <> "") ->
  tool_calls (llm w (Ask prompt)) = pre ++ tc :: post ->
  Forall (offered w) pre ->
  ~ offered w tc ->
  snd (main w) = inr (KeyError (name tc))
  /\ filter is_tool_event (fst (main w)) = map requested_invocation pre
  /\ filter is_llm_event (fst (main w)) = [Llm_ainvoke (Ask prompt)].
Proof.
  intros Cred Calls Known Unknown.
  rewrite (main_with_model w (credential_truthy w Cred)), Calls.
  destruct (pre ++ tc :: post) as [|x rest] eqn:E;
    [destruct pre; discriminate|].
  rewrite <- E, (ClientRuns.run_until_unknown w pre post tc Known Unknown).
  cbn [fst snd]. split; [reflexivity|].
  rewrite !filter_app, ClientRuns.tool_events_of_calls,
    ClientRuns.llm_events_of_calls.
  cbn [filter is_tool_event is_llm_event app].
  rewrite app_nil_r. split; reflexivity.
Qed.

Lemma unknown_tool_aborts_witness :
  snd (main (mkWorld gateway_tools (fun _ => Some "sk-test")
               (fun _ _ => "[]")
               (fun _ => mkResponse
                           [mkCall "list_expenses" None "call_1";
                            mkCall "delete_income" None "call_2";
                            mkCall "list_income" None "call_3"] "")))
  = inr (KeyError "delete_income").
Proof.
  refine (proj1 (unknown_tool_aborts
                  (mkWorld gateway_tools (fun _ => Some "sk-test")
                     (fun _ _ => "[]")
                     (fun _ => mkResponse
                                 [mkCall "list_expenses" None "call_1";
                                  mkCall "delete_income" None "call_2";
                                  mkCall "list_income" None "call_3"] ""))
                  [mkCall "list_expenses" None "call_1"]
                  [mkCall "list_income" None "call_3"]
                  (mkCall "delete_income" None "call_2")
                  _ eq_refl _ _)).
  - exists "sk-test". split; [reflexivity | discriminate].
  - constructor; [|constructor]. unfold offered. simpl. tauto.
  - unfold offered. simpl. intros H.
    repeat (destruct H as [H|H]; [discriminate H|]). exact H.
Defined.



(** X20. Without a credential, when the gateway does not offer
    [list_expenses], [main] ends with [KeyError] on that name, having
    invoked no tool and asked the model nothing. *)
Theorem smoke_test_tool_missing (w : world) :
  getenv w "OPENAI_API_KEY" = None \/ getenv w "OPENAI_API_KEY" = Some "" ->
  ~ In "list_expenses" (tools w) ->
  main w
  = ([Get_tools; Print "Available tools:"; Getenv "OPENAI_API_KEY";
      Print "OPENAI_API_KEY not set"],
     inr (KeyError "list_expenses")).
Proof.
  intros Unset Missing.
  assert (T : truthy (getenv w "OPENAI_API_KEY") = false)
    by (destruct Unset as [-> | ->]; reflexivity).
  unfold main. rewrite T, (ClientRuns.unknown_tool w _ _ Missing).
  reflexivity.
Qed.

Lemma smoke_test_tool_missing_witness :
  main (mkWorld ["add_expense"] (fun _ => None)
          (fun _ _ => "[]") (fun _ => mkResponse [] ""))
  = ([Get_tools; Print "Available tools:"; Getenv "OPENAI_API_KEY";
      Print "OPENAI_API_KEY not set"],
     inr (KeyError "list_expenses")).
Proof.
  refine (smoke_test_tool_missing
            (mkWorld ["add_expense"] (fun _ => None)
               (fun _ _ => "[]") (fun _ => mkResponse [] ""))
            (or_introl eq_refl) _).
  simpl. intros [H|[]]. discriminate H.
Defined.

End ClientPaths.

(** * The prompt templates *)

Lemma append_length (a b : string) :
  String.length (a ++ b)%string = (String.length a + String.length b)%nat.
Proof. induction a as [|c a IH]; simpl; [reflexivity | now rewrite IH]. Qed.

Lemma append_cancel_l (p a b : string) :
  (p ++ a)%string = (p ++ b)%string -> a = b.
Proof.
  induction p as [|c p IH]; simpl; [auto|].
  intros [= E]. now apply IH.
Qed.

Lemma append_cancel_r (a b s : string) :
  (a ++ s)%string = (b ++ s)%string -> a = b.
Proof.
  revert b. induction a as [|c a IH]; intros [|d b] E; simpl in E.
  - reflexivity.
  - apply (f_equal String.length) in E. simpl in E.
    rewrite append_length in E. lia.
  - apply (f_equal String.length) in E. simpl in E.
    rewrite append_length in E. lia.
  - injection E as -> E. f_equal. now apply IH.
Qed.

(** X21. The month can be read back from the text of
    [budget_health_prompt], and each date from the text of
    [expense_summary_prompt] once the other date is known; the two dates
    together cannot always: a start date that itself contains " and " gives
    the same text as a shorter start date with a longer end date. *)
Theorem prompts_and_their_arguments :
  (forall m1 m2,
      budget_health_prompt m1 = budget_health_prompt m2 -> m1 = m2)
  /\ (forall s e1 e2,
         expense_summary_prompt s e1 = expense_summary_prompt s e2 ->
         e1 = e2)
  /\ (forall s1 s2 e,
         expense_summary_prompt s1 e = expense_summary_prompt s2 e ->
         s1 = s2)
  /\ (exists s1 e1 s2 e2,
         s1 <> s2
         /\ expense_summary_prompt s1 e1 = expense_summary_prompt s2 e2).
Proof.
  split; [|split; [|split]].
  - intros m1 m2 E. unfold budget_health_prompt in E.
    apply append_cancel_l in E. now apply append_cancel_r in E.
  - intros s e1 e2 E. unfold expense_summary_prompt in E.
    do 3 apply append_cancel_l in E. now apply append_cancel_r in E.
  - intros s1 s2 e E. unfold expense_summary_prompt in E.
    apply append_cancel_l in E. now apply append_cancel_r in E.
  - exists "2024-01-01 and 2024-06-30", "2024-12-31",
           "2024-01-01", "2024-06-30 and 2024-12-31".
    split; [discriminate | reflexivity].
Qed.

(** * Adding and deleting *)

(** X22. On a store written only through the tools, deleting the expense
    that was just added gives back the tables as they were before the add,
    but not the counter: it stays at the id that was handed out, which is
    above the old counter, so the id is not handed out again. *)
Theorem add_then_delete (db db' : Store) (d : string) (a : Z) (c : string)
    (s n : option string) (st : string) (i : Z) :
  consistent db ->
  add_expense d a c s n db = (Returned (st, i), db') ->
  snd (delete_expense i db')
  = mkStore (expenses db) i (income db) (income_seq db) (budgets db)
  /\ expenses_seq db < i.
Proof.
  intros K. unfold add_expense.
  destruct (new_rowid _ _) as [rid|] eqn:N; [|discriminate].
  intros [= <- <- <-]. apply new_rowid_above in N.
  split; [|exact N].
  unfold delete_expense. simpl. f_equal.
  rewrite filter_app. simpl. rewrite Z.eqb_refl. simpl.
  rewrite app_nil_r. apply filter_all. intros r Hr.
  apply negb_true_iff, Z.eqb_neq.
  pose proof (expense_ids_counted db K) as Counted.
  rewrite Forall_forall in Counted.
  specialize (Counted (Expense.id r) (in_map Expense.id _ _ Hr)). lia.
Qed.

Lemma add_then_delete_witness :
  snd (delete_expense 1
         (mkStore [Expense.mk 1 "2024-01-15" 5000 "shopping" "" "New shoes"]
                  1 [] 0 []))
  = mkStore [] 1 [] 0 [].
Proof.
  refine (proj1 (add_then_delete init_db _ "2024-01-15" 5000 "shopping"
                   None (Some "New shoes") "ok" 1 init_db_consistent
                   eq_refl)).
Defined.
